(** * linkalytics: factor construction over a search index

    A shallow embedding of
    [linkalytics/factor/constructor/elasticfactor.py]: the query
    client [ElasticFactor] (its [available], [reduce] and
    [reverse_lookup] methods) and the module-level graph expansion
    ([combine_two_factors], [combine_multi_factors], [suggest],
    [factor_constructor], [flatten], [prune], [extend]).

    Python sets are [gset string], Python lists are [list], and Python
    dictionaries are insertion-ordered association lists: the order in
    which a dictionary is traversed is observable in [flatten], so a
    finite map with a canonical order would lose behaviour. *)

From Stdlib Require Import ZArith.
From stdpp Require Import base option list strings gmap.

Local Open Scope string_scope.
Local Open Scope Z_scope.
Local Open Scope list_scope.

(** ** Python runtime: exceptions, dictionaries, values *)

Module Py.

(** The exception classes that the embedded code can raise.
    [OtherError] stands for whatever the search client raises. *)
Inductive exn : Type :=
| NameError (name : string)
| TypeError
| KeyError
| AttributeError
| IndexError
| OtherError.

#[global] Instance exn_eq_dec : EqDecision exn.
Proof. solve_decision. Defined.

(** A computation either returns a value or raises. *)
Inductive result (A : Type) : Type :=
| Ok (a : A)
| Raise (e : exn).
Arguments Ok {A} a.
Arguments Raise {A} e.

Definition bind {A B} (m : result A) (k : A → result B) : result B :=
  match m with
  | Ok a => k a
  | Raise e => Raise e
  end.

#[global] Instance result_ret : MRet result := @Ok.
#[global] Instance result_bind : MBind result := λ A B k m, bind m k.

Definition returns {A} (m : result A) : Prop := ∃ a, m = Ok a.
Definition raises {A} (m : result A) : Prop := ∃ e, m = Raise e.

(** [for x in l: acc = body(acc, x)], where the body may raise. *)
Fixpoint for_each {A S} (body : S → A → result S) (l : list A) (acc : S)
  : result S :=
  match l with
  | [] => Ok acc
  | x :: l' => bind (body acc x) (for_each body l')
  end.

(** [[f(x) for x in l]], where [f] may raise. *)
Fixpoint comprehension {A B} (f : A → result B) (l : list A)
  : result (list B) :=
  match l with
  | [] => Ok []
  | x :: l' =>
      bind (f x) (λ y, bind (comprehension f l') (λ ys, Ok (y :: ys)))
  end.

(** [functools.reduce(f, seq, init)]. *)
Definition reduce_init {A B} (f : A → B → A) (seq : list B) (init : A) : A :=
  foldl f init seq.

(** [functools.reduce(f, seq)]: the first element is the initial
    value, and an empty sequence is a [TypeError]. *)
Definition reduce {A} (f : A → A → A) (seq : list A) : result A :=
  match seq with
  | [] => Raise TypeError
  | x :: seq' => Ok (foldl f x seq')
  end.

(** *** Dictionaries *)

(** A dictionary is the list of its bindings, in insertion order. *)
Abbreviation dict K V := (list (K * V)) (only parsing).

Section dict.
Context {K V : Type} `{EqDecision K}.

(** [d.get(k)]: the binding of [k], if any. *)
Fixpoint dict_get (k : K) (d : dict K V) : option V :=
  match d with
  | [] => None
  | (k', v) :: d' => if decide (k = k') then Some v else dict_get k d'
  end.

(** [d[k] = v]: overwrite the binding in place, or append a new one. *)
Fixpoint dict_set (k : K) (v : V) (d : dict K V) : dict K V :=
  match d with
  | [] => [(k, v)]
  | (k', v') :: d' =>
      if decide (k = k') then (k', v) :: d' else (k', v') :: dict_set k v d'
  end.

(** Mutation of the object stored under [k]; nothing to do when [k]
    is unbound. *)
Fixpoint dict_alter (f : V → V) (k : K) (d : dict K V) : dict K V :=
  match d with
  | [] => []
  | (k', v') :: d' =>
      if decide (k = k') then (k', f v') :: d'
      else (k', v') :: dict_alter f k d'
  end.

(** [d.update(addition)] *)
Definition dict_update (d addition : dict K V) : dict K V :=
  foldl (λ d '(k, v), dict_set k v d) d addition.

Definition dict_keys (d : dict K V) : list K := d.*1.
Definition dict_values (d : dict K V) : list V := d.*2.

(** [k in d] *)
Definition dict_contains (k : K) (d : dict K V) : bool :=
  bool_decide (is_Some (dict_get k d)).

(** A well-formed dictionary binds each key once. *)
Definition dict_wf (d : dict K V) : Prop := NoDup (dict_keys d).

(** [d[k]] *)
Definition dict_item (k : K) (d : dict K V) : result V :=
  match dict_get k d with
  | Some v => Ok v
  | None => Raise KeyError
  end.
End dict.

(** *** Documents

    The attributes of an entity are schema-less: a string, a list of
    values or a nested mapping with string keys. *)
#[local] Set Warnings "-register-all".
Inductive value : Type :=
| VStr (s : string)
| VList (l : list value)
| VDict (d : list (string * value)).

(** [isinstance(v, dict)] *)
Definition is_dict (v : value) : bool :=
  match v with VDict _ => true | _ => false end.

(** The characters of a string, each as a string of length one. *)
Fixpoint chars (s : string) : list string :=
  match s with
  | EmptyString => []
  | String c s' => String c EmptyString :: chars s'
  end.

(** An element can enter a set when it is hashable: strings are, lists
    and dictionaries are not. *)
Definition hashable (v : value) : result string :=
  match v with
  | VStr s => Ok s
  | _ => Raise TypeError
  end.

(** What [for i in v] yields when every [i] is then put in a set: the
    characters of a string, the elements of a list, the keys of a
    dictionary. *)
Definition iter_hashable (v : value) : result (list string) :=
  match v with
  | VStr s => Ok (chars s)
  | VList l => comprehension hashable l
  | VDict d => Ok (dict_keys d)
  end.

(** [set(v)] *)
Definition set_of (v : value) : result (gset string) :=
  bind (iter_hashable v) (λ l, Ok (list_to_set l)).

(** [len(v)] *)
Definition len (v : value) : Z :=
  match v with
  | VStr s => Z.of_nat (String.length s)
  | VList l => Z.of_nat (length l)
  | VDict d => Z.of_nat (length d)
  end.

(** [l.remove(x)]: drop the first occurrence ([ValueError] when there
    is none; the callers below only remove an element they have just
    read from the list). *)
Fixpoint list_remove {A} `{EqDecision A} (x : A) (l : list A) : list A :=
  match l with
  | [] => []
  | y :: l' => if decide (x = y) then l' else y :: list_remove x l'
  end.

End Py.

Import Py.

(** ** The search index

    The Elasticsearch client is outside the repository. A query is a
    payload; the index answers with a total hit count and a list of
    hits. A method that queries the index is a computation over a fixed
    backend that records the payloads it sends. *)

Module ES.

Inductive query : Type :=
| match_phrase (field value : string)
| ids (values : list string)
| match_ (field value : string).

Record payload : Type := Payload { payload_size : Z; payload_query : query }.

Record hit : Type := Hit { _id : string; _source : dict string value }.

(** [results['hits']['total']] and [results['hits']['hits']] *)
Record results : Type := Results { total : Z; hits : list hit }.

Definition backend : Type := payload → results.

(** A computation that may call [es.search]: it reads the backend and
    extends the log of payloads sent so far. *)
Definition M (A : Type) : Type := backend → list payload → A * list payload.

Definition ret {A} (a : A) : M A := λ _ log, (a, log).

Definition bind {A B} (m : M A) (k : A → M B) : M B :=
  λ be log, let '(a, log') := m be log in k a be log'.

#[global] Instance M_ret : MRet M := @ret.
#[global] Instance M_bind : MBind M := λ A B k m, bind m k.

(** [self.es.search(body=payload)] *)
Definition search (p : payload) : M results :=
  λ be log, (be p, log ++ [p]).

(** Run from an empty log. *)
Definition run {A} (m : M A) (be : backend) : A * list payload := m be [].

(** Two calls of a method in a row, over the same backend. *)
Definition twice {A} (m : M A) : M (A * A) := a ← m; b ← m; mret (a, b).

End ES.

(** ** The query client *)

Module ElasticFactor.
Import ES.

(** The fields set by [__init__]; the client [self.es] is the backend
    of [ES.M]. *)
Record t : Type := Make { self_url : string; self_size : Z }.

(** [ElasticFactor(url)], with the default [size=500]. *)
Definition new (url : string) : t := Make url 500.

(** [available(self, ad_id)] *)
Definition available (self : t) (ad_id : string) : M (list string) :=
  let accumulator := λ x y : gset string, x ∪ y in
  let payload := Payload (self_size self) (match_phrase "_id" ad_id) in
  results ← search payload;
  let keys :=
    (λ i, list_to_set (dict_keys (_source i)) : gset string) <$> hits results in
  ret (elements (Py.reduce_init accumulator keys ∅)).

(** [reverse_lookup(self, field, field_value)]. The hit count is an
    integer, so [not results['hits']['total']] holds exactly when it is
    zero. *)
Definition reverse_lookup (self : t) (field field_value : string)
  : M (list string) :=
  let payload := Payload (self_size self) (match_phrase field field_value) in
  results ← search payload;
  results ← (if decide (total results = 0)
              then
                let payload :=
                  Payload (self_size self) (match_phrase "_all" field_value) in
                search payload
              else ret results);
  ret (_id <$> hits results).

(** The inner generator of [reduce]:
    [reduce(union, map(set, combined[factor].values()), set())]. *)
Definition union_of_values (combined : dict string value) (factor : string)
  : Py.result (gset string) :=
  let union := λ x y : gset string, x ∪ y in
  by_factor ← dict_item factor combined;
  match by_factor with
  | VDict d =>
      sets ← comprehension set_of (dict_values d);
      Ok (Py.reduce_init union sets ∅)
  | _ => Raise AttributeError
  end.

(** [reduce(self, ad_id, *factors)]. [self.combine] is inherited from
    [FactorBase], which is not part of the source at hand, so the
    method is a parameter here. The outer [reduce] has no initial value
    and consumes the generator over [factors]. *)
Definition reduce
    (combine : t → string → list string →
               Py.result (dict string (dict string value)))
    (self : t) (ad_id : string) (factors : list string)
  : Py.result (gset string) :=
  let intersect := λ x y : gset string, x ∩ y in
  all ← combine self ad_id factors;
  combined ← dict_item ad_id all;
  unions ← comprehension (union_of_values combined) factors;
  Py.reduce intersect unions.

(** [isinstance(v, list)] *)
Definition is_list (v : value) : bool :=
  match v with VList _ => true | _ => false end.

(** [flatten(self, nested)]: a list is replaced by the concatenation of
    its flattened elements, anything else is a list of one element. *)
Fixpoint flatten (nested : value) : list value :=
  match nested with
  | VList l => concat (List.map flatten l)
  | _ => [nested]
  end.

(** [lookup(self, ad_id, field)]: the comprehension keeps the hits whose
    source has the field. *)
Definition lookup (self : t) (ad_id field : string) : M (list value) :=
  let payload := Payload (self_size self) (ids [ad_id]) in
  results ← search payload;
  ret (flatten (VList (omap (λ i, dict_get field (_source i)) (hits results)))).

(** [needle in hay], for strings. *)
Fixpoint str_contains (needle hay : string) : bool :=
  String.prefix needle hay
  || match hay with
     | EmptyString => false
     | String _ hay' => str_contains needle hay'
     end.

(** What [populater] returns: [data["factors"]] and
    [data["relationships"]]. *)
Record populated : Type :=
  Populated { factors : gset string; relationships : dict string string }.

(** The body of the innermost loops of [populater], for one binding
    [k4, v4] of the fourth level. Under [sourcecontents_1] the factor
    [k3 + "_" + k4] is recorded for [k2]; under any other key a
    dictionary [v4] is iterated with [k5] bound to a pair of
    [v4.items()], and [k4 + "_" + k5] is a [TypeError]. *)
Definition populater_level4 (k1 k2 k3 : string) (data : populated)
    (binding : string * value) : Py.result populated :=
  let '(k4, v4) := binding in
  if decide (k1 = "sourcecontents_1") then
    Ok (Populated ({[ k3 +:+ "_" +:+ k4 ]} ∪ factors data)
          (dict_set k2 (k3 +:+ "_" +:+ k4) (relationships data)))
  else
    match v4 with
    | VDict (_ :: _) => Raise TypeError
    | _ => Ok data
    end.

Definition populater_level3 (k1 k2 : string) (data : populated)
    (binding : string * value) : Py.result populated :=
  let '(k3, v3) := binding in
  match v3 with
  | VDict items4 => for_each (populater_level4 k1 k2 k3) items4 data
  | _ => Ok data
  end.

Definition populater_level2 (k1 : string) (data : populated)
    (binding : string * value) : Py.result populated :=
  let '(k2, v2) := binding in
  match v2 with
  | VDict items3 => for_each (populater_level3 k1 k2) items3 data
  | _ => Ok data
  end.

(** [v1.items()] is called on whatever is stored under a key that
    contains [sourcecontents]. *)
Definition populater_level1 (data : populated) (binding : string * value)
  : Py.result populated :=
  let '(k1, v1) := binding in
  if str_contains "sourcecontents" k1 then
    match v1 with
    | VDict items2 => for_each (populater_level2 k1) items2 data
    | _ => Raise AttributeError
    end
  else Ok data.

(** [populater(self, dictionary)] *)
Definition populater (dictionary : value) : Py.result populated :=
  match dictionary with
  | VDict items1 => for_each populater_level1 items1 (Populated ∅ [])
  | _ => Raise AttributeError
  end.

(** [check(self, factors, data)]: [network.list] is not a method of a
    list, so the body of the [if] raises [AttributeError]. *)
Definition check (factors : gset string) (data : populated)
  : Py.result (list (dict string string)) :=
  for_each
    (λ network k,
       if dict_contains k (relationships data) then Raise AttributeError
       else Ok network)
    (elements factors) [].

(** What [merge] returns: [everything["factors"]] and
    [everything["network"]]. *)
Record everything : Type :=
  Everything {
    merged_factors : dict string (gset string);
    merged_network : dict string (list (dict string string)) }.

(** [merge(self, a, b)] *)
Definition merge (a b : value) : Py.result everything :=
  data_a ← populater a;
  data_b ← populater b;
  let factors_a := factors data_a in
  let factors_b := factors data_b in
  let factors : dict string (gset string) :=
    dict_set "workflow_b" (factors_b ∖ factors_a)
      (dict_set "workflow_a" (factors_a ∖ factors_b)
         (dict_set "intersection" (factors_a ∩ factors_b) [])) in
  n_intersection ← check (factors_a ∩ factors_b) data_a;
  n_workflow_a ← check (factors_a ∖ factors_b) data_a;
  n_workflow_b ← check (factors_b ∖ factors_a) data_b;
  Ok (Everything factors
        (dict_set "workflow_b" n_workflow_b
           (dict_set "workflow_a" n_workflow_a
              (dict_set "intersection" n_intersection [])))).

End ElasticFactor.

(** ** Graph expansion (module level) *)

(** A factor dictionary: entity id, then factor name, then the values
    discovered for that factor. *)
Abbreviation factor_dict := (dict string (dict string value)) (only parsing).

Definition factor_dict_value (d : factor_dict) : value :=
  VDict (prod_map id VDict <$> d).

(** [combine_two_factors(original, addition)]. The loops run over the
    keys of [addition] and of [addition[k1]] and read the value bound to
    each key, that is, over their bindings. [original] is updated in
    place and returned; the inner loop writes into the dictionary stored
    under [k1], which the guard before it has made sure exists. *)
Definition combine_two_factors {K1 K2 V : Type}
    `{EqDecision K1, EqDecision K2}
    (original addition : dict K1 (dict K2 V)) : dict K1 (dict K2 V) :=
  foldl
    (λ original '(k1, addition_k1),
       let original :=
         if dict_contains k1 original then original
         else dict_set k1 [] original in
       foldl (λ original '(k2, v), dict_alter (dict_set k2 v) k1 original)
         original addition_k1)
    original addition.

(** Truth value of an optional dictionary: [None] and [{}] are false. *)
Definition truthy {A} (i : option (list A)) : bool :=
  match i with
  | Some (_ :: _) => true
  | _ => false
  end.

(** [combine_multi_factors(factors)]. [factors[0]] raises [IndexError]
    on an empty list, and merging into [None] is a [TypeError]
    ([k1 not in None]). *)
Definition combine_multi_factors {K1 K2 V : Type}
    `{EqDecision K1, EqDecision K2}
    (factors : list (option (dict K1 (dict K2 V))))
  : result (option (dict K1 (dict K2 V))) :=
  match factors with
  | [] => Raise IndexError
  | original :: rest =>
      for_each
        (λ original i,
           match i with
           | Some addition =>
               if truthy i then
                 match original with
                 | Some o => Ok (Some (combine_two_factors o addition))
                 | None => Raise TypeError
                 end
               else Ok original
           | None => Ok original
           end)
        rest original
  end.

(** [flatten(data, level)] and its local function [get_ad_ids]. The set
    [results] is threaded through; [depth] is a local variable of each
    call that the loop over the items reassigns before every recursive
    call, so a later sibling is visited with a larger [depth] than an
    earlier one. [.items()] on anything but a dictionary is an
    [AttributeError]. *)
Fixpoint get_ad_ids (level : Z) (subdict : value) (results : gset string)
    (depth : Z) {struct subdict} : result (gset string) :=
  match subdict with
  | VDict items =>
      if decide (level ≤ depth) then
        for_each
          (λ results '(k, v), i ← iter_hashable v; Ok (results ∪ list_to_set i))
          items results
      else
        (fix items_loop (items : list (string * value))
             (results : gset string) (depth : Z) : result (gset string) :=
           match items with
           | [] => Ok results
           | (k, v) :: items' =>
               if is_dict v then
                 let depth := depth + 1 in
                 results ← get_ad_ids level v results depth;
                 items_loop items' results depth
               else
                 i ← iter_hashable v;
                 items_loop items' (results ∪ list_to_set i) depth
           end) items results depth
  | _ => Raise AttributeError
  end.

Definition flatten (data : value) (level : Z) : result (gset string) :=
  get_ad_ids level data ∅ 0.

(** [prune(data, keepers)]: the whole body is commented out in the
    source; what is left is [return {}]. *)
Definition prune {A B : Type} (data : A) (keepers : B) : dict string value := [].

(** The duplicate-removal loop of [extend]:
<<
    for value in new_field_values:
        if value in field_values:
            new_field_values.remove(value)
>>
    The list iterator holds an index [i] into the list object and stops
    when [i] is past its end; the body removes from the same object.
    Every turn advances [i] and the list never grows, so [length l]
    turns always suffice. *)
Fixpoint remove_seen_from (fuel : nat) (field_values : gset string)
    (new_field_values : list string) (i : nat) : list string :=
  match fuel with
  | O => new_field_values
  | S fuel' =>
      match new_field_values !! i with
      | None => new_field_values
      | Some value =>
          if decide (value ∈ field_values)
          then remove_seen_from fuel' field_values
                 (list_remove value new_field_values) (S i)
          else remove_seen_from fuel' field_values new_field_values (S i)
      end
  end.

Definition remove_seen (field_values : gset string)
    (new_field_values : list string) : list string :=
  remove_seen_from (length new_field_values) field_values new_field_values 0.

(** *** Name resolution

    A name that a function body reads without binding it is looked up
    among the function's parameters, then among the names bound at
    module level, then among the builtins. *)
Inductive object : Type :=
| OStr (s : string)
| OList (l : list string)
| OGlobal (name : string).

(** The names bound at the top level of [elasticfactor.py]. *)
Definition module_globals : list string :=
  [ "json"; "logging"; "urllib3"; "Elasticsearch"; "reduce"; "FactorBase";
    "cfg"; "es_log"; "urllib3_log"; "ElasticFactor"; "combine_two_factors";
    "combine_multi_factors"; "suggest"; "factor_constructor"; "flatten";
    "prune"; "extend"; "main" ].

(** The builtin functions and constants of Python 3, with the exception
    classes this module names. *)
Definition builtins : list string :=
  [ "abs"; "all"; "any"; "ascii"; "bin"; "bool"; "bytearray"; "bytes";
    "callable"; "chr"; "classmethod"; "compile"; "complex"; "delattr";
    "dict"; "dir"; "divmod"; "enumerate"; "eval"; "exec"; "filter"; "float";
    "format"; "frozenset"; "getattr"; "globals"; "hasattr"; "hash"; "help";
    "hex"; "id"; "input"; "int"; "isinstance"; "issubclass"; "iter"; "len";
    "list"; "locals"; "map"; "max"; "memoryview"; "min"; "next"; "object";
    "oct"; "open"; "ord"; "pow"; "print"; "property"; "range"; "repr";
    "reversed"; "round"; "set"; "setattr"; "slice"; "sorted"; "staticmethod";
    "str"; "sum"; "super"; "tuple"; "type"; "vars"; "zip"; "__import__";
    "None"; "True"; "False"; "Ellipsis"; "NotImplemented";
    "TypeError"; "KeyError" ].

Definition load_name (locals : dict string object) (name : string)
  : result object :=
  match dict_get name locals with
  | Some o => Ok o
  | None =>
      if bool_decide (name ∈ module_globals ++ builtins)
      then Ok (OGlobal name)
      else Raise (NameError name)
  end.

(** [for i in o]: a module-level function, class or module is not
    iterable. *)
Definition iter_object (o : object) : result (list string) :=
  match o with
  | OStr s => Ok (chars s)
  | OList l => Ok l
  | OGlobal _ => Raise TypeError
  end.

(** [try: body except TypeError: return None] *)
Definition except_TypeError {A} (body : result (option A)) : result (option A) :=
  match body with
  | Raise TypeError => Ok None
  | r => r
  end.

Section expansion.

(** [suggest] is inherited by [ElasticFactor] from [FactorBase], which
    is not part of the source at hand; it queries the index and
    returns a factor dictionary, or raises. *)
Variable FactorBase_suggest :
  ElasticFactor.t → string → string → result factor_dict.

(** [suggest(ad_id, factor_label, url)] *)
Definition suggest (ad_id factor_label url : string)
  : result (option factor_dict) :=
  except_TypeError (
    let factor := ElasticFactor.new url in
    suggestions ← FactorBase_suggest factor ad_id factor_label;
    by_id ← dict_item ad_id suggestions;
    by_label ← dict_item factor_label by_id;
    if decide (len by_label = 0) then Ok None else Ok (Some suggestions)).

(** [factor_constructor(ad_id, factor_labe3, url)]: the comprehension
    iterates over the name [factor_labels]. *)
Definition factor_constructor (ad_id : string) (factor_labe3 : list string)
    (url : string) : result (option factor_dict) :=
  let locals :=
    [ ("ad_id", OStr ad_id); ("factor_labe3", OList factor_labe3);
      ("url", OStr url) ] in
  factor_labels ← load_name locals "factor_labels";
  labels ← iter_object factor_labels;
  suggestions ← comprehension (λ i, suggest ad_id i url) labels;
  combine_multi_factors suggestions.

(** [flatten(addition, 1)], where [addition] may be [None]. *)
Definition flatten_addition (addition : option factor_dict) (level : Z)
  : result (gset string) :=
  match addition with
  | Some a => flatten (factor_dict_value a) level
  | None => Raise AttributeError
  end.

(** [extend(data, url, factor_values, degree)], over the function it
    calls to build the factors of a discovered entity. Iterating a set
    visits its elements in some order; [print] is left out. *)
Definition extend_with
    (constructor : string → list string → string →
                   result (option factor_dict))
    (data : dict string value) (url : string)
    (factor_values : list string) (degree : string)
  : result (dict string value) :=
  field_values ←
    for_each
      (λ (field_values : gset string) v,
         values ← flatten v 1; Ok (field_values ∪ values))
      (dict_values data) ∅;
  let data := dict_set degree (VDict []) data in
  ad_ids_2 ← flatten (VDict data) 10;
  for_each
    (λ data ad_id,
       addition ← constructor ad_id factor_values url;
       new_values ← flatten_addition addition 1;
       let new_field_values := remove_seen field_values (elements new_values) in
       Ok (dict_set degree (VDict (prune addition new_field_values)) data))
    (elements ad_ids_2) data.

Definition extend : dict string value → string → list string → string →
                    result (dict string value) :=
  extend_with factor_constructor.

End expansion.

(** ** Specification predicates *)

(** The values [v] that [union_of_values] collects for a factor: those
    in one of the collections stored under the factor. *)
Definition in_union_of (combined : dict string value) (factor v : string) : Prop :=
  ∃ d coll s,
    dict_get factor combined = Some (VDict d)
    ∧ coll ∈ dict_values d ∧ set_of coll = Ok s ∧ v ∈ s.

(** A factor is well stored when its entry is a dictionary of
    collections of strings. *)
Definition well_stored (combined : dict string value) (factor : string) : Prop :=
  ∃ d, dict_get factor combined = Some (VDict d)
       ∧ Forall (λ coll, returns (set_of coll)) (dict_values d).

(** The number of mappings on the longest path from [v] down to a leaf,
    and the set of all leaf values of [v], as the specification of
    [flatten] words them. *)
Fixpoint nesting_depth_spec (v : value) : nat :=
  match v with
  | VDict d =>
      S ((fix over (d : list (string * value)) : nat :=
            match d with
            | [] => O
            | (_, v') :: d' => Nat.max (nesting_depth_spec v') (over d')
            end) d)
  | _ => O
  end.

Fixpoint leaf_values_spec (v : value) : result (gset string) :=
  match v with
  | VDict d =>
      (fix over (d : list (string * value)) : result (gset string) :=
         match d with
         | [] => Ok ∅
         | (_, v') :: d' =>
             here ← leaf_values_spec v'; there ← over d'; Ok (here ∪ there)
         end) d
  | _ => set_of v
  end.

(** ** Auxiliary definitions

    The loop of the second branch of [get_ad_ids], by itself. *)
Fixpoint items_loop (level : Z) (items : list (string * value))
    (results : gset string) (depth : Z) : result (gset string) :=
  match items with
  | [] => Ok results
  | (k, v) :: items' =>
      if is_dict v then
        let depth := depth + 1 in
        results ← get_ad_ids level v results depth;
        items_loop level items' results depth
      else
        i ← iter_hashable v;
        items_loop level items' (results ∪ list_to_set i) depth
  end.

(** The number of dictionaries stored, at any depth, inside [v]. *)
Fixpoint nested_dicts (v : value) : nat :=
  match v with
  | VDict d =>
      (fix over (d : list (string * value)) : nat :=
         match d with
         | [] => O
         | (_, v') :: d' =>
             ((if is_dict v' then S (nested_dicts v') else O) + over d')%nat
         end) d
  | _ => O
  end.

(** The leaf values below a list of bindings, as [leaf_values_spec]
    collects them. *)
Fixpoint leaf_values_over (d : list (string * value)) : result (gset string) :=
  match d with
  | [] => Ok ∅
  | (_, v') :: d' =>
      here ← leaf_values_spec v'; there ← leaf_values_over d'; Ok (here ∪ there)
  end.

Fixpoint nested_dicts_over (d : list (string * value)) : nat :=
  match d with
  | [] => O
  | (_, v') :: d' =>
      ((if is_dict v' then S (nested_dicts v') else O) + nested_dicts_over d')%nat
  end.

(** ** Sample data

    A factor graph as [main] builds it, and stand-ins for the inherited
    [suggest] method and for a constructor that returns. *)

Definition ids_of (l : list string) : value := VList (VStr <$> l).

Definition sample_factors : factor_dict :=
  [ ("63166071",
     [ ("phone", VDict [ ("5551234", ids_of ["63166071"; "71046685"]) ]) ]) ].

Definition sample_graph : dict string value :=
  [ ("original", factor_dict_value sample_factors) ].

Definition sample_suggest (self : ElasticFactor.t) (ad_id field : string)
  : result factor_dict :=
  Ok [ (ad_id, [ (field, VDict [ ("5551234", ids_of ["71046685"]) ]) ]) ].

Definition sample_constructor (ad_id : string) (factor_labels : list string)
    (url : string) : result (option factor_dict) :=
  Ok (Some [ (ad_id, [ ("phone", VDict [ ("5551234", ids_of ["31318107"]) ]) ]) ]).

(** An inherited [suggest] that fails on a type mismatch, and one that
    finds nothing. *)
Definition mismatching_suggest (self : ElasticFactor.t) (ad_id field : string)
  : result factor_dict := Raise TypeError.

Definition empty_suggest (self : ElasticFactor.t) (ad_id field : string)
  : result factor_dict := Ok [ (ad_id, [ (field, VDict []) ]) ].

(** An inherited [combine] over two factors of one entity. *)
Definition sample_combine (self : ElasticFactor.t) (ad_id : string)
    (factors : list string) : result (dict string (dict string value)) :=
  Ok [ (ad_id,
        [ ("phone", VDict [ ("5551234", ids_of ["1"; "2"]);
                            ("5559876", ids_of ["3"]) ]);
          ("email", VDict [ ("a@b.c", ids_of ["2"; "3"; "4"]) ]) ]) ].

(** An entity with one phone number, found in one other ad; and a graph
    of nine such entities under the degree [original]. *)
Definition entity (phone ad : string) : value :=
  VDict [ ("phone", VDict [ (phone, ids_of [ad]) ]) ].

Definition nine_entities : value :=
  VDict
    [ ("original",
       VDict
         [ ("e1", entity "5550001" "a1"); ("e2", entity "5550002" "a2");
           ("e3", entity "5550003" "a3"); ("e4", entity "5550004" "a4");
           ("e5", entity "5550005" "a5"); ("e6", entity "5550006" "a6");
           ("e7", entity "5550007" "a7"); ("e8", entity "5550008" "a8");
           ("e9", entity "5550009" "a9") ]) ].

(** An inherited [suggest] that cannot reach the index. *)
Definition unreachable_suggest (self : ElasticFactor.t) (ad_id field : string)
  : result factor_dict := Raise OtherError.

(** The factors that [populater] records for a dictionary with the
    bindings [items1]: [k3 + "_" + k4] for every path
    [sourcecontents_1 / k2 / k3 / k4] through three nested
    dictionaries. *)
Definition recorded (items1 : list (string * value)) (f : string) : Prop :=
  ∃ items2 k2 items3 k3 items4 k4 v4,
    ("sourcecontents_1", VDict items2) ∈ items1
    ∧ (k2, VDict items3) ∈ items2
    ∧ (k3, VDict items4) ∈ items3
    ∧ (k4, v4) ∈ items4
    ∧ f = k3 +:+ "_" +:+ k4.

(** A dictionary with one source under [sourcecontents_1], and one with
    a second source whose fourth level holds a non-empty dictionary. *)
Definition one_source : value :=
  VDict
    [ ("sourcecontents_1",
       VDict [ ("workflow", VDict [ ("phone", VDict [ ("5551234", VStr "x");
                                                      ("5559876", VStr "y") ]) ]) ]);
      ("created", VStr "2016") ].

Definition two_sources : value :=
  VDict
    [ ("sourcecontents_1",
       VDict [ ("workflow", VDict [ ("phone", VDict [ ("5551234", VStr "x") ]) ]) ]);
      ("sourcecontents_2",
       VDict [ ("workflow",
                VDict [ ("email", VDict [ ("a@b.c", VDict [ ("n", VStr "1") ]) ]) ]) ]) ].

(** An inherited [suggest] that answers for another entity. *)
Definition misfiled_suggest (self : ElasticFactor.t) (ad_id field : string)
  : result factor_dict :=
  Ok [ ("0", [ (field, VDict [ ("5551234", ids_of ["71046685"]) ]) ]) ].

(** The bindings of [sample_factors] as a value. *)
Definition sample_factors_items : list (string * value) :=
  [ ("63166071",
     VDict [ ("phone", VDict [ ("5551234", ids_of ["63166071"; "71046685"]) ]) ]) ].

(** * Properties *)

(** ** Dictionaries *)

Section dict_facts.

Context {K V : Type} `{EqDecision K}.

Implicit Types (d : dict K V) (k : K) (v : V).

Lemma dict_get_set k k' v d :
  dict_get k (dict_set k' v d) = if decide (k = k') then Some v else dict_get k d.
Proof.
  induction d as [|[k0 v0] d IH]; simpl.
  - by repeat case_decide.
  - destruct (decide (k' = k0)) as [->|Hne]; simpl.
    + by repeat case_decide.
    + rewrite IH. repeat case_decide; congruence.
Qed.

Lemma dict_get_set_eq k v d : dict_get k (dict_set k v d) = Some v.
Proof. by rewrite dict_get_set, decide_True. Qed.

Lemma dict_get_alter (f : V → V) k k' d :
  dict_get k (dict_alter f k' d)
  = if decide (k = k') then f <$> dict_get k d else dict_get k d.
Proof.
  induction d as [|[k0 v0] d IH]; simpl.
  - by case_decide.
  - destruct (decide (k' = k0)) as [->|Hne]; simpl.
    + by repeat case_decide.
    + rewrite IH. repeat case_decide; congruence.
Qed.

Lemma dict_keys_get k d : k ∈ dict_keys d ↔ is_Some (dict_get k d).
Proof.
  unfold dict_keys. induction d as [|[k0 v0] d IH]; simpl.
  - rewrite elem_of_nil. split; [done | by intros [? ?]].
  - rewrite elem_of_cons, IH. case_decide; subst.
    + split; [by eauto | by left].
    + split; [by intros [?|?] | by right].
Qed.

Lemma dict_get_None k d : k ∉ dict_keys d → dict_get k d = None.
Proof.
  rewrite dict_keys_get. destruct (dict_get k d); [|done].
  intros []. by eexists.
Qed.

End dict_facts.

(** ** Loops, comprehensions and folds *)

Lemma for_each_invariant {A S} (P : S → Prop) (body : S → A → result S) l :
  (∀ acc x acc', P acc → body acc x = Ok acc' → P acc') →
  ∀ acc out, P acc → for_each body l acc = Ok out → P out.
Proof.
  intros Hbody. induction l as [|x l IH]; simpl; intros acc out Hacc Hrun.
  - by simplify_eq.
  - destruct (body acc x) as [acc'|e] eqn:Hx; simpl in Hrun; [|done].
    eapply IH; [|done]. by eapply Hbody.
Qed.

Lemma for_each_raise_first {A S} (body : S → A → result S) x l acc e :
  body acc x = Raise e → for_each body (x :: l) acc = Raise e.
Proof. simpl. by intros ->. Qed.

Lemma for_each_skip {A S} (body : S → A → result S) (l : list A) (acc : S) :
  Forall (λ x, body acc x = Ok acc) l → for_each body l acc = Ok acc.
Proof.
  induction 1 as [|x l Hx _ IH]; simpl; [done|]. rewrite Hx. simpl. exact IH.
Qed.

Lemma comprehension_Forall2 {A B} (f : A → result B) l ys :
  comprehension f l = Ok ys ↔ Forall2 (λ x y, f x = Ok y) l ys.
Proof.
  revert ys. induction l as [|x l IH]; intros ys; simpl.
  - split.
    + intros [= <-]. constructor.
    + by intros ->%Forall2_nil_inv_l.
  - split.
    + destruct (f x) as [y|e] eqn:Hx; simpl; [|done].
      destruct (comprehension f l) as [ys'|e] eqn:Hl; simpl; [|done].
      intros [= <-]. constructor; [done|]. by apply IH.
    + intros (y & ys' & Hx & Hl & ->)%Forall2_cons_inv_l.
      rewrite Hx. simpl. apply IH in Hl. rewrite Hl. reflexivity.
Qed.

Lemma comprehension_returns {A B} (f : A → result B) l :
  Forall (λ x, returns (f x)) l → returns (comprehension f l).
Proof.
  induction 1 as [|x l [y Hy] _ [ys Hys]]; simpl.
  - by eexists.
  - rewrite Hy. simpl. rewrite Hys. simpl. by eexists.
Qed.

Lemma elem_of_reduce_union (sets : list (gset string)) (init : gset string) x :
  x ∈ Py.reduce_init (λ a b : gset string, a ∪ b) sets init
  ↔ x ∈ init ∨ ∃ s, s ∈ sets ∧ x ∈ s.
Proof.
  unfold Py.reduce_init. revert init.
  induction sets as [|s sets IH]; intros init; simpl.
  - split; [by left|]. intros [?|(s & Hs & _)]; [done|]. by apply elem_of_nil in Hs.
  - rewrite IH, elem_of_union. split.
    + intros [[?|?]|(s' & Hs' & Hx)].
      * by left.
      * right. exists s. split; [by left | done].
      * right. exists s'. split; [by right | done].
    + intros [?|(s' & Hs' & Hx)]; [by left; left|].
      apply elem_of_cons in Hs' as [->|Hs']; [by left; right|].
      right. by exists s'.
Qed.

Lemma elem_of_foldl_intersection (sets : list (gset string)) (init : gset string) x :
  x ∈ foldl (λ a b : gset string, a ∩ b) init sets
  ↔ x ∈ init ∧ ∀ s, s ∈ sets → x ∈ s.
Proof.
  revert init. induction sets as [|s sets IH]; intros init; simpl.
  - split; [|by intros [? _]]. intros ?. split; [done|].
    intros s Hs. by apply elem_of_nil in Hs.
  - rewrite IH, elem_of_intersection. split.
    + intros [[? ?] Hall]. split; [done|].
      intros s' [->|Hs']%elem_of_cons; [done | by apply Hall].
    + intros [? Hall]. split; [split; [done|]|].
      * apply Hall. by left.
      * intros s' Hs'. apply Hall. by right.
Qed.

(** ** [ElasticFactor.available] and [ElasticFactor.reverse_lookup] *)

Section query_facts.

Import ES.

(** What [available] returns, and what it sends. *)
Lemma available_run self ad_id (be : backend) log :
  let payload := Payload (ElasticFactor.self_size self) (match_phrase "_id" ad_id) in
  ElasticFactor.available self ad_id be log
  = (elements
       (Py.reduce_init (λ a b : gset string, a ∪ b)
          ((λ i, list_to_set (dict_keys (_source i))) <$> hits (be payload)) ∅),
     log ++ [payload]).
Proof. reflexivity. Qed.

(** C9. Over a fixed backend, two calls of [available] with the same
    [ad_id] return the same field names, namely those of the sources of
    the hits of the id query. *)
Theorem available_idempotent (self : ElasticFactor.t) (ad_id : string)
    (be : backend) (log : list payload) :
  let both := (twice (ElasticFactor.available self ad_id) be log).1 in
  both.1 = both.2
  ∧ (∀ f, f ∈ both.1 ↔ f ∈ both.2)
  ∧ (∀ f, f ∈ both.1 ↔
       ∃ h, h ∈ hits (be (Payload (ElasticFactor.self_size self)
                            (match_phrase "_id" ad_id)))
            ∧ f ∈ dict_keys (_source h)).
Proof.
  unfold twice, mbind, M_bind, bind, mret, M_ret, ret.
  rewrite !available_run. simpl. split; [done|]. split; [done|].
  intros f. rewrite elem_of_elements, elem_of_reduce_union.
  split.
  - intros [Hf|(s & Hs & Hf)]; [by apply elem_of_empty in Hf|].
    apply list_elem_of_fmap in Hs as (h & -> & Hh).
    exists h. split; [done|]. by apply elem_of_list_to_set in Hf.
  - intros (h & Hh & Hf). right.
    exists (list_to_set (dict_keys (_source h))). split.
    + apply list_elem_of_fmap. by exists h.
    + by apply elem_of_list_to_set.
Qed.

(** C6. [reverse_lookup] sends the phrase query on [field] and then,
    exactly when that query reports no hit, the phrase query on [_all];
    it sends nothing else, and it returns the ids of the hits of the
    last query it sent. *)
Theorem reverse_lookup_fallback_iff_no_hit (self : ElasticFactor.t)
    (field field_value : string) (be : backend) (log : list payload) :
  let first := Payload (ElasticFactor.self_size self)
                 (match_phrase field field_value) in
  let fallback := Payload (ElasticFactor.self_size self)
                    (match_phrase "_all" field_value) in
  let out := ElasticFactor.reverse_lookup self field field_value be log in
  ∃ sent : list payload,
    out.2 = log ++ sent
    ∧ (sent = [first; fallback] ↔ total (be first) = 0)
    ∧ (sent = [first] ↔ total (be first) ≠ 0)
    ∧ (length sent ≤ 2)%nat
    ∧ out.1 = _id <$> hits (if decide (total (be first) = 0)
                             then be fallback else be first).
Proof.
  intros first fallback out. subst out.
  unfold ElasticFactor.reverse_lookup, mbind, M_bind, bind, search, mret,
    M_ret, ret.
  fold first. fold fallback. simpl.
  destruct (decide (total (be first) = 0)) as [Hz|Hnz]; simpl.
  - exists [first; fallback]. rewrite <- app_assoc. simpl.
    repeat split; done.
  - exists [first]. repeat split; try done. simpl. lia.
Qed.

End query_facts.

(** ** [ElasticFactor.reduce] *)

Lemma union_of_values_returns combined factor :
  well_stored combined factor →
  returns (ElasticFactor.union_of_values combined factor).
Proof.
  intros (d & Hd & Hall). unfold ElasticFactor.union_of_values, dict_item.
  rewrite Hd. simpl.
  destruct (comprehension_returns set_of (dict_values d) Hall) as [sets ->].
  by eexists.
Qed.

Lemma union_of_values_spec combined factor U v :
  ElasticFactor.union_of_values combined factor = Ok U →
  v ∈ U ↔ in_union_of combined factor v.
Proof.
  unfold ElasticFactor.union_of_values, dict_item, in_union_of.
  destruct (dict_get factor combined) as [[s|l|d]|] eqn:Hd; simpl; try done.
  destruct (comprehension set_of (dict_values d)) as [sets|e] eqn:Hsets;
    simpl; [|done].
  intros [= <-]. apply comprehension_Forall2 in Hsets.
  rewrite elem_of_reduce_union. split.
  - intros [Hv|(s & Hs & Hv)]; [by apply elem_of_empty in Hv|].
    apply list_elem_of_lookup in Hs as [i Hi].
    destruct (Forall2_lookup_r _ _ _ _ _ Hsets Hi) as (coll & Hcoll & Hset).
    exists d, coll, s. repeat split; try done.
    by eapply list_elem_of_lookup_2.
  - intros (d' & coll & s & [= <-] & Hcoll & Hset & Hv). right.
    apply list_elem_of_lookup in Hcoll as [i Hi].
    destruct (Forall2_lookup_l _ _ _ _ _ Hsets Hi) as (s' & Hs' & Hset').
    rewrite Hset in Hset'. injection Hset' as <-.
    exists s. split; [|done]. by eapply list_elem_of_lookup_2.
Qed.

(** C1. For a non-empty list of factors that are all stored for the
    entity, [reduce] returns the set of the values that are, for every
    requested factor, in the union of the collections stored under that
    factor in the combined mapping of the entity. *)
Theorem reduce_is_intersection_of_unions
    (combine : ElasticFactor.t → string → list string →
               result (dict string (dict string value)))
    (self : ElasticFactor.t) (ad_id : string) (factors : list string)
    (all : dict string (dict string value)) (combined : dict string value) :
  factors ≠ [] →
  combine self ad_id factors = Ok all →
  dict_get ad_id all = Some combined →
  Forall (well_stored combined) factors →
  ∃ reduced : gset string,
    ElasticFactor.reduce combine self ad_id factors = Ok reduced
    ∧ ∀ v, v ∈ reduced ↔ ∀ factor, factor ∈ factors → in_union_of combined factor v.
Proof.
  intros Hne Hall Hcombined Hstored.
  unfold ElasticFactor.reduce, dict_item. rewrite Hall. simpl.
  rewrite Hcombined. simpl.
  assert (returns (comprehension (ElasticFactor.union_of_values combined) factors))
    as [unions Hunions].
  { apply comprehension_returns. eapply Forall_impl; [exact Hstored|].
    intros factor. apply union_of_values_returns. }
  rewrite Hunions. simpl. apply comprehension_Forall2 in Hunions.
  destruct Hunions as [|factor U factors' unions' HU Hrest]; [done|].
  simpl. eexists. split; [reflexivity|].
  intros v. rewrite elem_of_foldl_intersection. split.
  - intros [HvU Hvrest] factor0 [Heq|Hin]%elem_of_cons.
    + rewrite Heq. by apply (union_of_values_spec combined factor U v HU).
    + apply list_elem_of_lookup in Hin as [i Hi].
      destruct (Forall2_lookup_l _ _ _ _ _ Hrest Hi) as (U' & HU' & Hspec).
      apply (union_of_values_spec combined factor0 U' v Hspec).
      apply Hvrest. by eapply list_elem_of_lookup_2.
  - intros Hv. split.
    + apply (union_of_values_spec combined factor U v HU). apply Hv. by left.
    + intros U' Hin. apply list_elem_of_lookup in Hin as [i Hi].
      destruct (Forall2_lookup_r _ _ _ _ _ Hrest Hi) as (factor0 & Hf & Hspec).
      apply (union_of_values_spec combined factor0 U' v Hspec).
      apply Hv. right. by eapply list_elem_of_lookup_2.
Qed.

Lemma reduce_is_intersection_of_unions_witness :
  ∃ reduced : gset string,
    ElasticFactor.reduce sample_combine (ElasticFactor.new "http://es")
      "63166071" ["phone"; "email"] = Ok reduced
    ∧ ∀ v, v ∈ reduced ↔
        ∀ factor, factor ∈ ["phone"; "email"] →
          in_union_of
            [ ("phone", VDict [ ("5551234", ids_of ["1"; "2"]);
                                ("5559876", ids_of ["3"]) ]);
              ("email", VDict [ ("a@b.c", ids_of ["2"; "3"; "4"]) ]) ]
            factor v.
Proof.
  eapply (reduce_is_intersection_of_unions sample_combine).
  - discriminate.
  - reflexivity.
  - reflexivity.
  - repeat constructor.
    + eexists. split; [reflexivity|]. repeat constructor; by eexists.
    + eexists. split; [reflexivity|]. repeat constructor; by eexists.
Defined.

Example reduce_sample :
  ElasticFactor.reduce sample_combine (ElasticFactor.new "http://es")
    "63166071" ["phone"; "email"] = Ok {["2"; "3"]}.
Proof. vm_compute. reflexivity. Qed.

Example reduce_no_factor :
  ElasticFactor.reduce sample_combine (ElasticFactor.new "http://es")
    "63166071" [] = Raise TypeError.
Proof. reflexivity. Qed.

(** ** [combine_two_factors] and [combine_multi_factors] *)

Section combine_facts.

Context {K1 K2 V : Type} `{EqDecision K1, EqDecision K2}.

Lemma dict_get_update (d addition : dict K2 V) k2 :
  dict_wf addition →
  dict_get k2 (dict_update d addition)
  = match dict_get k2 addition with
    | Some v => Some v
    | None => dict_get k2 d
    end.
Proof.
  unfold dict_update, dict_wf, dict_keys. revert d.
  induction addition as [|[k v] addition IH]; intros d Hwf; simpl; [done|].
  apply NoDup_cons in Hwf as [Hk Hwf]. rewrite IH by done.
  case_decide as Hk2.
  - subst k. rewrite (dict_get_None k2 addition) by done.
    apply dict_get_set_eq.
  - rewrite dict_get_set. by rewrite decide_False.
Qed.

(** The inner loop writes every binding of [addition[k1]] into the
    dictionary stored under [k1] and touches no other entry. *)
Lemma dict_get_inner_loop (original : dict K1 (dict K2 V)) k1
    (addition_k1 : dict K2 V) k :
  dict_get k
    (foldl (λ original '(k2, v), dict_alter (dict_set k2 v) k1 original)
       original addition_k1)
  = if decide (k = k1)
    then (λ d, dict_update d addition_k1) <$> dict_get k original
    else dict_get k original.
Proof.
  revert original. induction addition_k1 as [|[k2 v] rest IH];
    intros original; simpl.
  - case_decide; [|done]. by destruct (dict_get k original).
  - rewrite IH, dict_get_alter. case_decide; [|done].
    by destruct (dict_get k original).
Qed.

(** After [combine_two_factors], the entry of an outer key of
    [addition] is the entry of [original] (or [{}]) updated with the
    entry of [addition]; the other entries are those of [original]. *)
Lemma dict_get_combine_two_factors (original addition : dict K1 (dict K2 V)) k :
  dict_wf addition →
  dict_get k (combine_two_factors original addition)
  = match dict_get k addition with
    | Some addition_k =>
        Some (dict_update (default [] (dict_get k original)) addition_k)
    | None => dict_get k original
    end.
Proof.
  unfold combine_two_factors, dict_wf, dict_keys. revert original.
  induction addition as [|[k1 addition_k1] addition IH];
    intros original Hwf; simpl; [done|].
  apply NoDup_cons in Hwf as [Hk1 Hwf]. rewrite IH by done.
  case_decide as Hk.
  - subst k1. rewrite (dict_get_None k addition) by done.
    rewrite dict_get_inner_loop, decide_True by done.
    unfold dict_contains. case_bool_decide as Hin.
    + destruct Hin as [d ->]. reflexivity.
    + rewrite dict_get_set_eq.
      destruct (dict_get k original); [|done]. destruct Hin. by eexists.
  - destruct (dict_get k addition) as [addition_k|] eqn:Hak.
    + f_equal. f_equal. f_equal.
      rewrite dict_get_inner_loop, decide_False by done.
      case_match; [done|]. by rewrite dict_get_set, decide_False.
    + rewrite dict_get_inner_loop, decide_False by done.
      case_match; [done|]. by rewrite dict_get_set, decide_False.
Qed.

End combine_facts.

(** C4. For well-formed dictionaries, the outer keys of
    [combine_two_factors original addition] are those of [original]
    and those of [addition]; a value is found under an outer and an
    inner key exactly when [addition] has it there, or else [original]
    has it there, so the inner mappings are united and [addition] wins;
    and the two dictionaries of the spec's example are united at the
    second level. *)
Theorem combine_two_factors_union {K1 K2 V : Type}
    `{EqDecision K1, EqDecision K2}
    (original addition : dict K1 (dict K2 V)) :
  dict_wf addition →
  Forall (λ kv, dict_wf kv.2) addition →
  (∀ k1, k1 ∈ dict_keys (combine_two_factors original addition)
         ↔ k1 ∈ dict_keys original ∨ k1 ∈ dict_keys addition)
  ∧ (∀ k1 k2,
       dict_get k1 (combine_two_factors original addition) ≫= dict_get k2
       = match dict_get k1 addition ≫= dict_get k2 with
         | Some v => Some v
         | None => dict_get k1 original ≫= dict_get k2
         end)
  ∧ combine_two_factors [("x", [(1, 1)])] [("x", [(2, 2)])]
    = [("x", [(1, 1); (2, 2)])].
Proof.
  intros Hwf Hinner. split; [|split].
  - intros k1. rewrite !dict_keys_get, dict_get_combine_two_factors by done.
    destruct (dict_get k1 addition), (dict_get k1 original);
      split; try (intros [?|?]); eauto; by apply is_Some_None in H1.
  - intros k1 k2. rewrite dict_get_combine_two_factors by done.
    destruct (dict_get k1 addition) as [addition_k1|] eqn:Hk1; simpl.
    + assert (dict_wf addition_k1) as Hwf1.
      { clear -Hinner Hk1. induction addition as [|[k d] addition IH];
          simpl in *; [done|].
        apply Forall_cons in Hinner as [Hd Hinner].
        case_decide; [by simplify_eq | by apply IH]. }
      rewrite dict_get_update by done.
      destruct (dict_get k2 addition_k1); [done|].
      by destruct (dict_get k1 original).
    + reflexivity.
  - reflexivity.
Qed.

Lemma combine_two_factors_union_witness :
  let original := [("x", [(1, 1)]); ("y", [(3, 3)])] in
  let addition := [("x", [(2, 2); (1, 7)]); ("z", [(4, 4)])] in
  (∀ k1 : string, k1 ∈ dict_keys (combine_two_factors original addition)
         ↔ k1 ∈ dict_keys original ∨ k1 ∈ dict_keys addition)
  ∧ (∀ (k1 : string) (k2 : Z),
       dict_get k1 (combine_two_factors original addition) ≫= dict_get k2
       = match dict_get k1 addition ≫= dict_get k2 with
         | Some v => Some v
         | None => dict_get k1 original ≫= dict_get k2
         end)
  ∧ combine_two_factors [("x", [(1, 1)])] [("x", [(2, 2)])]
    = [("x", [(1, 1); (2, 2)])].
Proof.
  apply (combine_two_factors_union
           [("x", [(1, 1)]); ("y", [(3, 3)])]
           [("x", [(2, 2); (1, 7)]); ("z", [(4, 4)])]).
  - unfold dict_wf. simpl. compute_done.
  - repeat constructor; unfold dict_wf; simpl; compute_done.
Defined.

Example combine_two_factors_sample :
  combine_two_factors
    [("x", [(1, 1)]); ("y", [(3, 3)])]
    [("x", [(2, 2); (1, 7)]); ("z", [(4, 4)])]
  = [("x", [(1, 7); (2, 2)]); ("y", [(3, 3)]); ("z", [(4, 4)])].
Proof. reflexivity. Qed.

(** X6. [combine_multi_factors] needs a first element; it returns that
    element when the others are [None] or empty, and it raises
    [TypeError] when the first is [None] and the second is not empty. *)
Theorem combine_multi_factors_edge_cases {K1 K2 V : Type}
    `{EqDecision K1, EqDecision K2} :
  combine_multi_factors (K1:=K1) (K2:=K2) (V:=V) [] = Raise IndexError
  ∧ (∀ (original : option (dict K1 (dict K2 V))) rest,
       Forall (λ i, truthy i = false) rest →
       combine_multi_factors (original :: rest) = Ok original)
  ∧ (∀ (addition : dict K1 (dict K2 V)) rest,
       truthy (Some addition) = true →
       combine_multi_factors (None :: Some addition :: rest) = Raise TypeError).
Proof.
  split; [reflexivity|]. split.
  - intros original rest Hrest. unfold combine_multi_factors.
    apply for_each_skip. eapply Forall_impl; [exact Hrest|].
    intros [addition|] Hfalsy; [|done]. by rewrite Hfalsy.
  - intros addition rest Htruthy. unfold combine_multi_factors.
    apply for_each_raise_first. by rewrite Htruthy.
Qed.

(** ** [suggest] *)

(** C8. When the inherited lookup raises [TypeError], the module-level
    [suggest] catches it and returns [None]; it also returns [None],
    raising nothing, when the lookup finds no value for the factor. *)
Theorem suggest_TypeError_or_empty_is_None
    (FactorBase_suggest : ElasticFactor.t → string → string → result factor_dict)
    (ad_id factor_label url : string) :
  (FactorBase_suggest (ElasticFactor.new url) ad_id factor_label = Raise TypeError
   ∨ ∃ suggestions by_id by_label,
       FactorBase_suggest (ElasticFactor.new url) ad_id factor_label
       = Ok suggestions
       ∧ dict_get ad_id suggestions = Some by_id
       ∧ dict_get factor_label by_id = Some by_label
       ∧ len by_label = 0) →
  suggest FactorBase_suggest ad_id factor_label url = Ok None.
Proof.
  unfold suggest. intros [Hraise|(suggestions & by_id & by_label & Hs & Hid & Hl & Hlen)].
  - rewrite Hraise. reflexivity.
  - rewrite Hs. simpl. unfold dict_item. rewrite Hid. simpl. rewrite Hl. simpl.
    rewrite decide_True by done. reflexivity.
Qed.

Lemma suggest_TypeError_or_empty_is_None_witness :
  suggest mismatching_suggest "63166071" "phone" "http://es" = Ok None
  ∧ suggest empty_suggest "63166071" "phone" "http://es" = Ok None.
Proof.
  split.
  - apply suggest_TypeError_or_empty_is_None. left. reflexivity.
  - apply suggest_TypeError_or_empty_is_None. right.
    exists [("63166071", [("phone", VDict [])])], [("phone", VDict [])], (VDict []).
    repeat split; reflexivity.
Defined.

(** X5. Any other exception of the lookup goes through [suggest]. *)
Theorem suggest_propagates
    (FactorBase_suggest : ElasticFactor.t → string → string → result factor_dict)
    (ad_id factor_label url : string) (e : exn) :
  e ≠ TypeError →
  FactorBase_suggest (ElasticFactor.new url) ad_id factor_label = Raise e →
  suggest FactorBase_suggest ad_id factor_label url = Raise e.
Proof. unfold suggest. intros Hne ->. simpl. by destruct e. Qed.

Lemma suggest_propagates_witness :
  suggest unreachable_suggest "63166071" "phone" "http://es" = Raise OtherError.
Proof.
  apply (suggest_propagates unreachable_suggest "63166071" "phone" "http://es").
  - discriminate.
  - reflexivity.
Defined.

(** ** [flatten] *)

(** With [level = 0] the first call of [get_ad_ids] already takes the
    first branch: each top-level value is iterated once and no nested
    mapping is entered. *)
Lemma flatten_level_0 (items : list (string * value)) :
  flatten (VDict items) 0
  = for_each
      (λ (results : gset string) '(k, v),
         i ← iter_hashable v; Ok (results ∪ list_to_set i))
      items ∅.
Proof. reflexivity. Qed.

Lemma for_each_top_values (items : list (string * value))
    (results out : gset string) :
  for_each
    (λ (results : gset string) '(k, v),
       i ← iter_hashable v; Ok (results ∪ list_to_set i))
    items results = Ok out →
  ∀ x, x ∈ out ↔
    x ∈ results ∨ ∃ k v i, (k, v) ∈ items ∧ iter_hashable v = Ok i ∧ x ∈ i.
Proof.
  revert results. induction items as [|[k v] items IH]; simpl; intros results Hrun x.
  - injection Hrun as <-. split; [by left|].
    intros [?|(k & v & i & Hin & _)]; [done|]. by apply elem_of_nil in Hin.
  - destruct (iter_hashable v) as [i|e] eqn:Hv; simpl in Hrun; [|done].
    rewrite (IH _ Hrun x), elem_of_union, elem_of_list_to_set. split.
    + intros [[?|?]|(k' & v' & i' & Hin & Hi' & Hx)].
      * by left.
      * right. exists k, v, i. split; [by left | done].
      * right. exists k', v', i'. split; [by right | done].
    + intros [?|(k' & v' & i' & Hin & Hi' & Hx)]; [by left; left|].
      apply elem_of_cons in Hin as [[= -> ->]|Hin].
      * left. right. rewrite Hv in Hi'. by injection Hi' as <-.
      * right. by exists k', v', i'.
Qed.

(** X2. The first half of the specification of [flatten]: with
    [level = 0] the result holds exactly what iterating each top-level
    value once yields. *)
Theorem flatten_level_0_top_values (items : list (string * value))
    (out : gset string) :
  flatten (VDict items) 0 = Ok out →
  ∀ x, x ∈ out ↔ ∃ k v i, (k, v) ∈ items ∧ iter_hashable v = Ok i ∧ x ∈ i.
Proof.
  rewrite flatten_level_0. intros Hrun x.
  rewrite (for_each_top_values items ∅ out Hrun x).
  split; [|by right]. intros [Hx|?]; [|done]. by apply elem_of_empty in Hx.
Qed.

Lemma flatten_level_0_top_values_witness :
  "e1" ∈ ({["e1"; "e2"; "e3"; "e4"; "e5"; "e6"; "e7"; "e8"; "e9"]} : gset string)
  ↔ ∃ k v i,
      (k, v) ∈ [ ("original",
                  VDict
                    [ ("e1", entity "5550001" "a1"); ("e2", entity "5550002" "a2");
                      ("e3", entity "5550003" "a3"); ("e4", entity "5550004" "a4");
                      ("e5", entity "5550005" "a5"); ("e6", entity "5550006" "a6");
                      ("e7", entity "5550007" "a7"); ("e8", entity "5550008" "a8");
                      ("e9", entity "5550009" "a9") ]) ]
      ∧ iter_hashable v = Ok i ∧ "e1" ∈ i.
Proof.
  apply (flatten_level_0_top_values
           [ ("original",
              VDict
                [ ("e1", entity "5550001" "a1"); ("e2", entity "5550002" "a2");
                  ("e3", entity "5550003" "a3"); ("e4", entity "5550004" "a4");
                  ("e5", entity "5550005" "a5"); ("e6", entity "5550006" "a6");
                  ("e7", entity "5550007" "a7"); ("e8", entity "5550008" "a8");
                  ("e9", entity "5550009" "a9") ]) ]).
  vm_compute. reflexivity.
Defined.

(** C5. On a graph of nine entities under one degree, nested four
    mappings deep, [flatten] with [level = 10] does not return the leaf
    values: [depth] has grown by one per sibling, so the ninth entity is
    visited with [depth = 10], its factor dictionaries are iterated as
    if they were leaves, and the result holds the phone number
    ["5550009"] in place of the ad id ["a9"]. With [level = 0] the same
    graph yields the keys of its top-level value. *)
Theorem flatten_sibling_depth_slip :
  nesting_depth_spec nine_entities = 4%nat
  ∧ leaf_values_spec nine_entities
    = Ok {["a1"; "a2"; "a3"; "a4"; "a5"; "a6"; "a7"; "a8"; "a9"]}
  ∧ flatten nine_entities 10
    = Ok {["a1"; "a2"; "a3"; "a4"; "a5"; "a6"; "a7"; "a8"; "5550009"]}
  ∧ flatten nine_entities 10 ≠ leaf_values_spec nine_entities
  ∧ flatten nine_entities 0
    = Ok {["e1"; "e2"; "e3"; "e4"; "e5"; "e6"; "e7"; "e8"; "e9"]}.
Proof.
  assert (flatten nine_entities 10
          = Ok {["a1"; "a2"; "a3"; "a4"; "a5"; "a6"; "a7"; "a8"; "5550009"]})
    as Hflat by (vm_compute; reflexivity).
  assert (leaf_values_spec nine_entities
          = Ok {["a1"; "a2"; "a3"; "a4"; "a5"; "a6"; "a7"; "a8"; "a9"]})
    as Hleaf by (vm_compute; reflexivity).
  split; [reflexivity|]. split; [exact Hleaf|]. split; [exact Hflat|].
  split; [|vm_compute; reflexivity].
  rewrite Hflat, Hleaf. intros Heq.
  apply (f_equal (λ r, match r with
                       | Ok s => bool_decide ("a9" ∈ s)
                       | Raise _ => false
                       end)) in Heq.
  vm_compute in Heq. discriminate Heq.
Qed.

Lemma get_ad_ids_VDict level items results depth :
  get_ad_ids level (VDict items) results depth
  = if decide (level ≤ depth)
    then for_each
           (λ (results : gset string) '(k, v),
              i ← iter_hashable v; Ok (results ∪ list_to_set i))
           items results
    else items_loop level items results depth.
Proof.
  simpl. case_decide; [done|]. clear H. revert results depth.
  induction items as [|[k v] items IH]; intros results depth; [done|].
  simpl. destruct (is_dict v).
  - destruct (get_ad_ids level v results (depth + 1)); simpl; [|done].
    apply IH.
  - destruct (iter_hashable v); simpl; [|done]. apply IH.
Qed.

Lemma leaf_values_spec_VDict d :
  leaf_values_spec (VDict d) = leaf_values_over d.
Proof.
  simpl. induction d as [|[k v] d IH]; [done|].
  simpl. destruct (leaf_values_spec v); simpl; [|done]. by rewrite IH.
Qed.

Lemma nested_dicts_VDict d : nested_dicts (VDict d) = nested_dicts_over d.
Proof.
  simpl. induction d as [|[k v] d IH]; [done|]. simpl. by rewrite IH.
Qed.

Lemma leaf_values_spec_leaf v :
  is_dict v = false → leaf_values_spec v = set_of v.
Proof. by destruct v. Qed.

(** Induction over the dictionaries nested in a value. *)
Lemma value_dict_ind (P : value → Prop) :
  (∀ v, is_dict v = false → P v) →
  (∀ d, Forall (λ kv, P kv.2) d → P (VDict d)) →
  ∀ v, P v.
Proof.
  intros Hleaf Hdict.
  fix IH 1. intros [s|l|d].
  - by apply Hleaf.
  - by apply Hleaf.
  - apply Hdict. induction d as [|[k v] d IHd]; constructor; [apply IH | apply IHd].
Qed.

(** While [depth] stays below [level] in every call, [get_ad_ids] adds
    the leaf values to [results]: it does when [level] exceeds [depth]
    by more than the number of dictionaries nested in the value. *)
Lemma get_ad_ids_leaf_values level v :
  ∀ results depth,
    is_dict v = true →
    depth + Z.of_nat (nested_dicts v) < level →
    get_ad_ids level v results depth
    = (s ← leaf_values_spec v; Ok (results ∪ s)).
Proof.
  induction v as [v Hv|d IHd] using value_dict_ind; intros results depth Hd Hlt.
  { congruence. }
  clear Hd. rewrite get_ad_ids_VDict, leaf_values_spec_VDict.
  rewrite nested_dicts_VDict in Hlt.
  rewrite decide_False by lia.
  revert results depth Hlt.
  induction d as [|[k v] d IH]; intros results depth Hlt; simpl.
  - f_equal. by rewrite (right_id_L ∅ (∪)).
  - apply Forall_cons in IHd as [Hv IHd]. simpl in Hv, Hlt.
    destruct (is_dict v) eqn:Hdv.
    + rewrite Hv by (done || lia).
      destruct (leaf_values_spec v) as [here|e]; simpl; [|done].
      rewrite IH by (done || lia).
      destruct (leaf_values_over d) as [there|e]; simpl; [|done].
      f_equal. by rewrite (assoc_L (∪)).
    + rewrite leaf_values_spec_leaf by done. unfold set_of.
      destruct (iter_hashable v) as [i|e]; simpl; [|done].
      rewrite IH by (done || lia).
      destruct (leaf_values_over d) as [there|e]; simpl; [|done].
      f_equal. by rewrite (assoc_L (∪)).
Qed.

(** X3. When [level] is larger than the number of dictionaries nested
    in [data], [flatten] returns the set of all leaf values of [data]
    (and raises when collecting them raises). *)
Theorem flatten_above_nested_dicts (data : list (string * value)) (level : Z) :
  Z.of_nat (nested_dicts (VDict data)) < level →
  flatten (VDict data) level = leaf_values_spec (VDict data).
Proof.
  intros Hlt. unfold flatten.
  rewrite (get_ad_ids_leaf_values level (VDict data) ∅ 0) by (done || lia).
  destruct (leaf_values_spec (VDict data)) as [s|e]; simpl; [|done].
  f_equal. by rewrite (left_id_L ∅ (∪)).
Qed.

Lemma flatten_above_nested_dicts_witness :
  flatten nine_entities 20 = leaf_values_spec nine_entities.
Proof.
  apply (flatten_above_nested_dicts
           [ ("original",
              VDict
                [ ("e1", entity "5550001" "a1"); ("e2", entity "5550002" "a2");
                  ("e3", entity "5550003" "a3"); ("e4", entity "5550004" "a4");
                  ("e5", entity "5550005" "a5"); ("e6", entity "5550006" "a6");
                  ("e7", entity "5550007" "a7"); ("e8", entity "5550008" "a8");
                  ("e9", entity "5550009" "a9") ]) ] 20).
  vm_compute. reflexivity.
Defined.

(** ** [prune] *)

(** C7. [prune] is a stub: whatever [data] and [keepers] are, it returns
    the empty dictionary, so its result depends on neither argument. *)
Theorem prune_is_constant_stub {A B A' B' : Type}
    (data : A) (keepers : B) (data' : A') (keepers' : B') :
  prune data keepers = [] ∧ prune data keepers = prune data' keepers'.
Proof. unfold prune. split; reflexivity. Qed.

(** ** The removal loop of [extend] *)

Lemma list_remove_length {A} `{EqDecision A} (x : A) l :
  (length (list_remove x l) ≤ length l)%nat.
Proof. induction l as [|y l IH]; simpl; [done|]. case_decide; simpl; lia. Qed.

(** More turns than the list is long change nothing: the result of
    [remove_seen] is the state in which the iterator is exhausted. *)
Lemma remove_seen_from_fuel fuel fuel' field_values l i :
  (length l - i ≤ fuel)%nat → (length l - i ≤ fuel')%nat →
  remove_seen_from fuel field_values l i
  = remove_seen_from fuel' field_values l i.
Proof.
  revert fuel' l i.
  induction fuel as [|fuel IH]; intros fuel' l i Hf Hf'.
  - destruct fuel'; simpl; [done|].
    rewrite lookup_ge_None_2; [done | lia].
  - destruct fuel' as [|fuel']; simpl.
    + rewrite lookup_ge_None_2; [done | lia].
    + destruct (l !! i) as [value|] eqn:Hi; [|done].
      apply lookup_lt_Some in Hi.
      case_decide.
      * pose proof (list_remove_length value l). apply IH; lia.
      * apply IH; lia.
Qed.

(** X4. The removal loop terminates: its result does not depend on
    the number of turns allowed beyond the length of the list. *)
Theorem remove_seen_fuel_independent (n : nat) (field_values : gset string)
    (l : list string) :
  remove_seen_from (length l + n) field_values l 0 = remove_seen field_values l.
Proof. unfold remove_seen. apply remove_seen_from_fuel; lia. Qed.

(** Removing an element that sits at index [i] of a duplicate-free list
    keeps the first [i] elements and shifts the rest one place down. *)
Lemma list_remove_at (l : list string) (i : nat) (x : string) :
  NoDup l → l !! i = Some x → list_remove x l = take i l ++ drop (S i) l.
Proof.
  revert i. induction l as [|y l IH]; intros i Hnd Hi; [done|].
  apply NoDup_cons in Hnd as [Hy Hnd]. simpl. case_decide as Hxy.
  - subst y. destruct i as [|i]; [done|]. simpl in Hi.
    destruct Hy. by eapply list_elem_of_lookup_2.
  - destruct i as [|i]; simpl in *; [congruence|].
    f_equal. by apply IH.
Qed.

Lemma list_remove_NoDup (l : list string) (x : string) :
  NoDup l → NoDup (list_remove x l).
Proof.
  induction l as [|y l IH]; intros Hnd; [done|].
  apply NoDup_cons in Hnd as [Hy Hnd]. simpl. case_decide; [done|].
  apply NoDup_cons. split; [|by apply IH].
  intros Hin. apply Hy. clear -Hin.
  induction l as [|z l IH]; simpl in *; [done|].
  case_decide; [by right|].
  apply elem_of_cons in Hin as [->|Hin]; [by left | right; by apply IH].
Qed.

(** What the iterator has passed is never looked at again: in a
    duplicate-free list the first [i] elements survive the rest of the
    loop. *)
Lemma remove_seen_from_prefix fuel field_values (l : list string) i :
  NoDup l → take i l `prefix_of` remove_seen_from fuel field_values l i.
Proof.
  revert l i. induction fuel as [|fuel IH]; intros l i Hnd; simpl.
  - apply prefix_take.
  - destruct (l !! i) as [value|] eqn:Hi; [|apply prefix_take].
    case_decide.
    + rewrite (list_remove_at l i value) by done.
      pose proof (lookup_lt_Some _ _ _ Hi) as Hlt.
      etrans; [|apply IH].
      * rewrite take_app_ge by (rewrite length_take; lia).
        by apply prefix_app_r.
      * rewrite <- (list_remove_at l i value) by done.
        by apply list_remove_NoDup.
    + etrans; [|by apply IH]. rewrite (take_S_r _ _ _ Hi). by apply prefix_app_r.
Qed.

(** X1. When a duplicate-free list starts with a known value, the value
    next to it is never examined and stays in the list, known or not. *)
Theorem remove_seen_skips_neighbour field_values (a b : string) rest :
  NoDup (a :: b :: rest) → a ∈ field_values →
  b ∈ remove_seen field_values (a :: b :: rest).
Proof.
  intros Hnd Ha. unfold remove_seen. simpl.
  rewrite decide_True by done. rewrite decide_True by done.
  change (b ∈ remove_seen_from (S (length rest)) field_values (b :: rest) 1).
  assert (NoDup (b :: rest)) as Hnd' by (by apply NoDup_cons in Hnd as [_ ?]).
  destruct (remove_seen_from_prefix (S (length rest)) field_values (b :: rest) 1 Hnd')
    as [k Hk].
  rewrite Hk. simpl. by left.
Qed.

Lemma remove_seen_skips_neighbour_witness :
  "5559876" ∈ remove_seen {["5551234"; "5559876"]} ["5551234"; "5559876"; "5550000"].
Proof.
  apply (remove_seen_skips_neighbour {["5551234"; "5559876"]}
           "5551234" "5559876" ["5550000"]).
  - compute_done.
  - compute_done.
Defined.

(** C2. The removal loop of [extend] changes the list it iterates over
    and so skips elements: there are a duplicate-free list of new values
    and a set of known values such that a known value is still in the
    list when the loop has finished. *)
Theorem extend_removal_loop_skips :
  ∃ (new_field_values : list string) (field_values : gset string)
    (value : string),
    NoDup new_field_values
    ∧ value ∈ remove_seen field_values new_field_values
    ∧ value ∈ field_values.
Proof.
  exists ["5551234"; "5559876"], {["5551234"; "5559876"]}, "5559876".
  split; [|split].
  - compute_done.
  - assert (remove_seen {["5551234"; "5559876"]} ["5551234"; "5559876"]
            = ["5559876"]) as -> by (vm_compute; reflexivity).
    by left.
  - set_solver.
Qed.

(** ** [factor_constructor] and [extend] *)

Section expansion_facts.

Variable FactorBase_suggest :
  ElasticFactor.t → string → string → result factor_dict.

(** The name [factor_labels] is bound nowhere: the parameter is called
    [factor_labe3]. *)
Lemma factor_constructor_NameError ad_id factor_labe3 url :
  factor_constructor FactorBase_suggest ad_id factor_labe3 url
  = Raise (NameError "factor_labels").
Proof. unfold factor_constructor. reflexivity. Qed.

Lemma elements_nonempty (ids : gset string) :
  ids ≠ ∅ → ∃ x l, elements ids = x :: l.
Proof.
  intros Hne. destruct (elements ids) as [|x l] eqn:He; [|by eauto].
  destruct Hne. by apply elements_empty_inv in He as ->%leibniz_equiv.
Qed.

(** [extend] raises as soon as its second loop has an entity to visit. *)
Lemma extend_with_raising_constructor constructor data url factor_values degree
    ids e :
  (∀ ad_id, constructor ad_id factor_values url = Raise e) →
  flatten (VDict (dict_set degree (VDict []) data)) 10 = Ok ids → ids ≠ ∅ →
  raises (extend_with constructor data url factor_values degree).
Proof.
  intros Hc Hids Hne. unfold extend_with.
  destruct (for_each _ (dict_values data) ∅) as [field_values|e'];
    simpl; [|by eexists].
  rewrite Hids. simpl.
  destruct (elements_nonempty ids Hne) as (x & l & ->).
  exists e. apply for_each_raise_first. by rewrite Hc.
Qed.


End expansion_facts.

(** C3. [factor_constructor] raises [NameError] on every input, because
    its body reads [factor_labels] while its parameter is named
    [factor_labe3]; hence every call of [extend] whose flattened set of
    ids is not empty raises too. *)
Theorem factor_constructor_always_raises
    (FactorBase_suggest : ElasticFactor.t → string → string → result factor_dict) :
  (∀ ad_id factor_labe3 url,
     factor_constructor FactorBase_suggest ad_id factor_labe3 url
     = Raise (NameError "factor_labels"))
  ∧ (∀ data url factor_values degree ids,
       flatten (VDict (dict_set degree (VDict []) data)) 10 = Ok ids →
       ids ≠ ∅ →
       raises (extend FactorBase_suggest data url factor_values degree)).
Proof.
  split.
  - apply factor_constructor_NameError.
  - intros data url factor_values degree ids Hids Hne.
    eapply extend_with_raising_constructor; [|exact Hids|exact Hne].
    intros ad_id. apply factor_constructor_NameError.
Qed.

Lemma factor_constructor_always_raises_witness :
  factor_constructor sample_suggest "63166071" ["phone"; "email"] "http://es"
  = Raise (NameError "factor_labels")
  ∧ raises (extend sample_suggest sample_graph "http://es" ["phone"] "ext2").
Proof.
  split.
  - apply (proj1 (factor_constructor_always_raises sample_suggest)).
  - apply (proj2 (factor_constructor_always_raises sample_suggest)
             sample_graph "http://es" ["phone"] "ext2"
             {["63166071"; "71046685"]}).
    + vm_compute. reflexivity.
    + intros Heq. apply (f_equal elements) in Heq. vm_compute in Heq.
      discriminate Heq.
Defined.

(** C10. Whenever [extend] returns, the entry it leaves under [degree]
    is the empty dictionary, whatever the constructor it calls returns:
    the entry is [{}] before the loop and every turn overwrites it with
    the result of [prune]. [extend] itself is the instance at
    [factor_constructor]. *)
Theorem extend_degree_entry_is_empty
    (constructor : string → list string → string → result (option factor_dict))
    (data : dict string value) (url : string) (factor_values : list string)
    (degree : string) (out : dict string value) :
  extend_with constructor data url factor_values degree = Ok out →
  dict_get degree out = Some (VDict []).
Proof.
  unfold extend_with. intros Hrun.
  destruct (for_each _ (dict_values data) ∅) as [field_values|e];
    simpl in Hrun; [|done].
  destruct (flatten _ 10) as [ad_ids_2|e]; simpl in Hrun; [|done].
  eapply (for_each_invariant (λ d, dict_get degree d = Some (VDict [])));
    [| |exact Hrun].
  - intros acc ad_id acc' _ Hbody. cbv beta in Hbody.
    destruct (constructor ad_id factor_values url) as [addition|e];
      simpl in Hbody; [|done].
    destruct (flatten_addition addition 1) as [new_values|e];
      simpl in Hbody; [|done].
    inversion Hbody; subst. apply dict_get_set_eq.
  - apply dict_get_set_eq.
Qed.

Lemma extend_degree_entry_is_empty_witness :
  (extend_with sample_constructor sample_graph "http://es" ["phone"] "ext2"
   = Ok (sample_graph ++ [("ext2", VDict [])])
   ∧ dict_get "ext2" (sample_graph ++ [("ext2", VDict [])]) = Some (VDict []))
  ∧ (extend sample_suggest [("original", VDict [])] "http://es" ["phone"] "ext2"
     = Ok [("original", VDict []); ("ext2", VDict [])]
     ∧ dict_get "ext2" [("original", VDict []); ("ext2", VDict [])]
       = Some (VDict [])).
Proof.
  split; split.
  - vm_compute. reflexivity.
  - apply (extend_degree_entry_is_empty sample_constructor sample_graph
             "http://es" ["phone"] "ext2"). vm_compute. reflexivity.
  - vm_compute. reflexivity.
  - apply (extend_degree_entry_is_empty (factor_constructor sample_suggest)
             [("original", VDict [])] "http://es" ["phone"] "ext2").
    vm_compute. reflexivity.
Defined.

(** ** [ElasticFactor.flatten] and [ElasticFactor.lookup] *)

(** Induction over the lists nested in a value. *)
Lemma value_list_ind (P : value → Prop) :
  (∀ v, ElasticFactor.is_list v = false → P v) →
  (∀ l, Forall P l → P (VList l)) →
  ∀ v, P v.
Proof.
  intros Hleaf Hlist.
  fix IH 1. intros [s|l|d].
  - by apply Hleaf.
  - apply Hlist. induction l as [|v l IHl]; constructor; [apply IH | apply IHl].
  - by apply Hleaf.
Qed.

Lemma method_flatten_no_list nested :
  Forall (λ v, ElasticFactor.is_list v = false) (ElasticFactor.flatten nested).
Proof.
  induction nested as [v Hv|l IHl] using value_list_ind.
  - destruct v; try done; by repeat constructor.
  - simpl. induction IHl as [|v l Hv _ IH]; simpl; [constructor|].
    by apply Forall_app.
Qed.

Lemma method_flatten_flat l :
  Forall (λ v, ElasticFactor.is_list v = false) l →
  ElasticFactor.flatten (VList l) = l.
Proof.
  simpl. induction 1 as [|v l Hv _ IH]; simpl; [done|].
  rewrite IH. by destruct v.
Qed.

Lemma method_flatten_elem nested v :
  v ∈ ElasticFactor.flatten (VList nested) →
  ∃ x, x ∈ nested ∧ v ∈ ElasticFactor.flatten x.
Proof.
  simpl. induction nested as [|x nested IH]; simpl.
  - by intros ?%elem_of_nil.
  - intros [Hv|Hv]%elem_of_app.
    + exists x. split; [by left | done].
    + destruct (IH Hv) as (y & Hy & Hvy). exists y. split; [by right | done].
Qed.

(** X7. The method [flatten] returns a list without lists in it, and
    flattening its result again changes nothing. *)
Theorem method_flatten_idempotent (nested : value) :
  Forall (λ v, ElasticFactor.is_list v = false) (ElasticFactor.flatten nested)
  ∧ ElasticFactor.flatten (VList (ElasticFactor.flatten nested))
    = ElasticFactor.flatten nested.
Proof.
  split.
  - apply method_flatten_no_list.
  - apply method_flatten_flat, method_flatten_no_list.
Qed.

(** X8. The method [flatten] keeps the order of what it flattens: a
    concatenation is flattened part by part, and a list that holds no
    list is returned as it is. *)
Theorem method_flatten_app (l1 l2 : list value) :
  ElasticFactor.flatten (VList (l1 ++ l2))
  = ElasticFactor.flatten (VList l1) ++ ElasticFactor.flatten (VList l2)
  ∧ (Forall (λ v, ElasticFactor.is_list v = false) l1 →
     ElasticFactor.flatten (VList (l1 ++ l2))
     = l1 ++ ElasticFactor.flatten (VList l2)).
Proof.
  assert (ElasticFactor.flatten (VList (l1 ++ l2))
          = ElasticFactor.flatten (VList l1) ++ ElasticFactor.flatten (VList l2))
    as Happ by (simpl; by rewrite List.map_app, concat_app).
  split; [exact Happ|].
  intros Hflat. by rewrite Happ, (method_flatten_flat l1 Hflat).
Qed.

Lemma method_flatten_app_witness :
  ElasticFactor.flatten
    (VList ([VStr "5551234"; VDict []] ++ [VList [VStr "5559876"; VList []]]))
  = [VStr "5551234"; VDict []]
    ++ ElasticFactor.flatten (VList [VList [VStr "5559876"; VList []]]).
Proof.
  apply (proj2 (method_flatten_app [VStr "5551234"; VDict []]
                  [VList [VStr "5559876"; VList []]])).
  repeat constructor.
Defined.

Section lookup_facts.
Import ES.

(** X9. [lookup] sends one query, the id query for [ad_id] with the
    configured size; what it returns holds no list, and each of its
    elements comes from flattening the value of the field in a hit that
    has the field. *)
Theorem lookup_is_flat (self : ElasticFactor.t) (ad_id field : string)
    (be : backend) (log : list payload) :
  let payload := Payload (ElasticFactor.self_size self) (ids [ad_id]) in
  let out := ElasticFactor.lookup self ad_id field be log in
  out.2 = log ++ [payload]
  ∧ Forall (λ v, ElasticFactor.is_list v = false) out.1
  ∧ (∀ v, v ∈ out.1 →
       ∃ h field_value,
         h ∈ hits (be payload)
         ∧ dict_get field (_source h) = Some field_value
         ∧ v ∈ ElasticFactor.flatten field_value).
Proof.
  intros payload out. subst out.
  unfold ElasticFactor.lookup, mbind, M_bind, bind, search, mret, M_ret, ret.
  fold payload. cbn [fst snd].
  split; [done|]. split; [apply method_flatten_no_list|].
  intros v Hv. apply method_flatten_elem in Hv as (x & Hx & Hv).
  apply list_elem_of_omap in Hx as (h & Hh & Hfield).
  by exists h, x.
Qed.

(** A hit whose source lacks the field contributes nothing. *)
Lemma lookup_without_field (self : ElasticFactor.t) (ad_id field : string)
    (be : backend) (log : list payload) :
  Forall (λ h, dict_get field (_source h) = None)
    (hits (be (Payload (ElasticFactor.self_size self) (ids [ad_id])))) →
  (ElasticFactor.lookup self ad_id field be log).1 = [].
Proof.
  intros Hnone.
  unfold ElasticFactor.lookup, mbind, M_bind, bind, search, mret, M_ret, ret.
  cbn [fst snd].
  induction Hnone as [|h hs Hh _ IH]; [done|].
  simpl. rewrite Hh. exact IH.
Qed.

End lookup_facts.

(** ** [ElasticFactor.populater], [ElasticFactor.check] and [ElasticFactor.merge] *)

(** When a loop returns, a property that every turn preserves and that
    the turn for [x] establishes holds of the result. *)
Lemma for_each_reaches {A S} (Q : S → Prop) (body : S → A → result S) x l :
  (∀ acc y acc', Q acc → body acc y = Ok acc' → Q acc') →
  (∀ acc acc', body acc x = Ok acc' → Q acc') →
  x ∈ l →
  ∀ acc out, for_each body l acc = Ok out → Q out.
Proof.
  intros Hkeep Hx. induction l as [|y l IH]; intros Hin acc out Hrun.
  - by apply elem_of_nil in Hin.
  - simpl in Hrun. destruct (body acc y) as [acc'|e] eqn:Hy; simpl in Hrun; [|done].
    apply elem_of_cons in Hin as [->|Hin].
    + eapply (for_each_invariant Q); [exact Hkeep| |exact Hrun]. by eapply Hx.
    + by eapply IH.
Qed.

Lemma for_each_invariant_elem {A S} (P : S → Prop) (body : S → A → result S) l :
  (∀ acc x acc', x ∈ l → P acc → body acc x = Ok acc' → P acc') →
  ∀ acc out, P acc → for_each body l acc = Ok out → P out.
Proof.
  induction l as [|x l IH]; simpl; intros Hbody acc out Hacc Hrun.
  - by simplify_eq.
  - destruct (body acc x) as [acc'|e] eqn:Hx; simpl in Hrun; [|done].
    eapply IH; [| |exact Hrun].
    + intros a y a' Hy. apply Hbody. by right.
    + eapply Hbody; [by left|exact Hacc|exact Hx].
Qed.

Lemma for_each_raises_at {A S} (body : S → A → result S) x l acc :
  (∀ acc', raises (body acc' x)) → x ∈ l → raises (for_each body l acc).
Proof.
  intros Hx. revert acc. induction l as [|y l IH]; intros acc Hin.
  - by apply elem_of_nil in Hin.
  - simpl. destruct (body acc y) as [acc'|e] eqn:Hy; simpl; [|by eexists].
    apply elem_of_cons in Hin as [->|Hin].
    + destruct (Hx acc) as [e He]. congruence.
    + by apply IH.
Qed.

Section populater_facts.
Import ElasticFactor.

(** The factors only grow in every loop of [populater]. *)
Lemma populater_level4_mono k1 k2 k3 data b data' f :
  f ∈ factors data → populater_level4 k1 k2 k3 data b = Ok data' →
  f ∈ factors data'.
Proof.
  destruct b as [k4 v4]. unfold populater_level4. intros Hf.
  case_decide.
  - intros [= <-]. simpl. set_solver.
  - destruct v4 as [| |[|]]; by intros [= <-].
Qed.

Lemma populater_level3_mono k1 k2 data b data' f :
  f ∈ factors data → populater_level3 k1 k2 data b = Ok data' →
  f ∈ factors data'.
Proof.
  destruct b as [k3 v3]. unfold populater_level3. intros Hf.
  destruct v3 as [| |items4]; try by intros [= <-].
  apply (for_each_invariant (λ d, f ∈ factors d)); [|done].
  intros acc y acc' Hacc. by apply populater_level4_mono.
Qed.

Lemma populater_level2_mono k1 data b data' f :
  f ∈ factors data → populater_level2 k1 data b = Ok data' →
  f ∈ factors data'.
Proof.
  destruct b as [k2 v2]. unfold populater_level2. intros Hf.
  destruct v2 as [| |items3]; try by intros [= <-].
  apply (for_each_invariant (λ d, f ∈ factors d)); [|done].
  intros acc y acc' Hacc. by apply populater_level3_mono.
Qed.

Lemma populater_level1_mono data b data' f :
  f ∈ factors data → populater_level1 data b = Ok data' → f ∈ factors data'.
Proof.
  destruct b as [k1 v1]. unfold populater_level1. intros Hf.
  destruct (str_contains "sourcecontents" k1); [|by intros [= <-]].
  destruct v1 as [| |items2]; try done.
  apply (for_each_invariant (λ d, f ∈ factors d)); [|done].
  intros acc y acc' Hacc. by apply populater_level2_mono.
Qed.

(** Soundness: whatever is in the factors was there before or is
    recorded for the bindings at hand. *)
Lemma populater_level4_sound k1 k2 k3 (P : string → Prop) data b data' :
  (∀ f, f ∈ factors data → P f) →
  (k1 = "sourcecontents_1" → P (k3 +:+ "_" +:+ b.1)) →
  populater_level4 k1 k2 k3 data b = Ok data' →
  ∀ f, f ∈ factors data' → P f.
Proof.
  destruct b as [k4 v4]. unfold populater_level4. intros Hold Hnew.
  case_decide as Hk1.
  - intros [= <-] f. simpl. intros [->%elem_of_singleton|Hf]%elem_of_union.
    + by apply Hnew.
    + by apply Hold.
  - destruct v4 as [| |[|]]; by intros [= <-].
Qed.

Lemma populater_sound items1 data :
  for_each populater_level1 items1 (Populated ∅ []) = Ok data →
  ∀ f, f ∈ factors data → recorded items1 f.
Proof.
  apply (for_each_invariant_elem
           (λ d, ∀ f, f ∈ factors d → recorded items1 f)).
  - intros acc [k1 v1] acc' Hin1 Hacc. unfold populater_level1.
    destruct (str_contains "sourcecontents" k1); [|by intros [= <-]].
    destruct v1 as [| |items2]; [done|done|].
    apply (for_each_invariant_elem
             (λ d, ∀ f, f ∈ factors d → recorded items1 f)); [|done].
    intros acc2 [k2 v2] acc2' Hin2 Hacc2. unfold populater_level2.
    destruct v2 as [| |items3]; try by intros [= <-].
    apply (for_each_invariant_elem
             (λ d, ∀ f, f ∈ factors d → recorded items1 f)); [|done].
    intros acc3 [k3 v3] acc3' Hin3 Hacc3. unfold populater_level3.
    destruct v3 as [| |items4]; try by intros [= <-].
    apply (for_each_invariant_elem
             (λ d, ∀ f, f ∈ factors d → recorded items1 f)); [|done].
    intros acc4 [k4 v4] acc4' Hin4 Hacc4.
    apply populater_level4_sound; [done|].
    intros ->. by exists items2, k2, items3, k3, items4, k4, v4.
  - intros f Hf. simpl in Hf. by apply elem_of_empty in Hf.
Qed.

Lemma populater_complete items1 data f :
  for_each populater_level1 items1 (Populated ∅ []) = Ok data →
  recorded items1 f → f ∈ factors data.
Proof.
  intros Hrun (items2 & k2 & items3 & k3 & items4 & k4 & v4
               & Hin1 & Hin2 & Hin3 & Hin4 & ->).
  eapply (for_each_reaches (λ d, _ ∈ factors d)); [| |exact Hin1|exact Hrun].
  { intros acc y acc' Hacc. by apply populater_level1_mono. }
  intros acc acc'. unfold populater_level1.
  assert (str_contains "sourcecontents" "sourcecontents_1" = true) as ->
    by reflexivity.
  apply (for_each_reaches (λ d, _ ∈ factors d)) with (x := (k2, VDict items3));
    [| |exact Hin2].
  { intros a y a' Ha. by apply populater_level2_mono. }
  intros acc2 acc2'. unfold populater_level2.
  apply (for_each_reaches (λ d, _ ∈ factors d)) with (x := (k3, VDict items4));
    [| |exact Hin3].
  { intros a y a' Ha. by apply populater_level3_mono. }
  intros acc3 acc3'. unfold populater_level3.
  apply (for_each_reaches (λ d, _ ∈ factors d)) with (x := (k4, v4));
    [| |exact Hin4].
  { intros a y a' Ha. by apply populater_level4_mono. }
  intros acc4 acc4'. unfold populater_level4.
  rewrite decide_True by done. intros [= <-]. simpl. set_solver.
Qed.

End populater_facts.

Section populater_theorems.
Import ElasticFactor.

(** X10. When [populater] returns, its factors are [k3 + "_" + k4] for
    the paths [sourcecontents_1 / k2 / k3 / k4] through three nested
    dictionaries of the input, and nothing else: the entries under any
    other key record nothing. *)
Theorem populater_factors (items1 : list (string * value)) (data : populated) :
  populater (VDict items1) = Ok data →
  ∀ f, f ∈ factors data ↔ recorded items1 f.
Proof.
  simpl. intros Hrun f. split.
  - by apply populater_sound.
  - by apply populater_complete.
Qed.

Lemma populater_factors_witness :
  "phone_5551234" ∈ ({["phone_5551234"; "phone_5559876"]} : gset string)
  ↔ recorded
      [ ("sourcecontents_1",
         VDict [ ("workflow", VDict [ ("phone", VDict [ ("5551234", VStr "x");
                                                        ("5559876", VStr "y") ]) ]) ]);
        ("created", VStr "2016") ]
      "phone_5551234".
Proof.
  refine (populater_factors
            [ ("sourcecontents_1",
               VDict [ ("workflow",
                        VDict [ ("phone", VDict [ ("5551234", VStr "x");
                                                  ("5559876", VStr "y") ]) ]) ]);
              ("created", VStr "2016") ]
            (Populated {["phone_5551234"; "phone_5559876"]}
               [("workflow", "phone_5559876")]) _ "phone_5551234").
  vm_compute. reflexivity.
Defined.

Lemma populater_level4_related k1 k2 k3 data b data' :
  (∀ k f, dict_get k (relationships data) = Some f → f ∈ factors data) →
  populater_level4 k1 k2 k3 data b = Ok data' →
  ∀ k f, dict_get k (relationships data') = Some f → f ∈ factors data'.
Proof.
  destruct b as [k4 v4]. unfold populater_level4. intros Hold.
  case_decide.
  - intros [= <-] k f. simpl. rewrite dict_get_set. case_decide.
    + intros [= <-]. set_solver.
    + intros Hk. apply elem_of_union_r. by eapply Hold.
  - destruct v4 as [| |[|]]; by intros [= <-].
Qed.

(** X11. When [populater] returns, every value of its relationships is
    one of its factors. *)
Theorem populater_relationships_are_factors (dictionary : value)
    (data : populated) :
  populater dictionary = Ok data →
  ∀ k f, dict_get k (relationships data) = Some f → f ∈ factors data.
Proof.
  destruct dictionary as [| |items1]; [done|done|]. simpl.
  apply (for_each_invariant
           (λ d, ∀ k f, dict_get k (relationships d) = Some f → f ∈ factors d));
    [|done].
  intros acc [k1 v1] acc' Hacc. unfold populater_level1.
  destruct (str_contains "sourcecontents" k1); [|by intros [= <-]].
  destruct v1 as [| |items2]; [done|done|].
  apply (for_each_invariant
           (λ d, ∀ k f, dict_get k (relationships d) = Some f → f ∈ factors d));
    [|done].
  intros acc2 [k2 v2] acc2' Hacc2. unfold populater_level2.
  destruct v2 as [| |items3]; try by intros [= <-].
  apply (for_each_invariant
           (λ d, ∀ k f, dict_get k (relationships d) = Some f → f ∈ factors d));
    [|done].
  intros acc3 [k3 v3] acc3' Hacc3. unfold populater_level3.
  destruct v3 as [| |items4]; try by intros [= <-].
  apply (for_each_invariant
           (λ d, ∀ k f, dict_get k (relationships d) = Some f → f ∈ factors d));
    [|done].
  intros acc4 b acc4' Hacc4. by apply populater_level4_related.
Qed.

Lemma populater_relationships_are_factors_witness :
  "phone_5559876" ∈ ({["phone_5551234"; "phone_5559876"]} : gset string).
Proof.
  refine (populater_relationships_are_factors one_source
            (Populated {["phone_5551234"; "phone_5559876"]}
               [("workflow", "phone_5559876")]) _ "workflow" "phone_5559876" _).
  - vm_compute. reflexivity.
  - reflexivity.
Defined.

(** X12. [populater] raises when a key that contains [sourcecontents]
    is bound to something that is not a dictionary, and when such a key
    other than [sourcecontents_1] leads through three nested
    dictionaries to a non-empty dictionary. *)
Theorem populater_raises (items1 : list (string * value)) :
  (∃ k1 v1, (k1, v1) ∈ items1
            ∧ str_contains "sourcecontents" k1 = true
            ∧ is_dict v1 = false)
  ∨ (∃ k1 items2 k2 items3 k3 items4 k4 b rest,
       (k1, VDict items2) ∈ items1
       ∧ str_contains "sourcecontents" k1 = true
       ∧ k1 ≠ "sourcecontents_1"
       ∧ (k2, VDict items3) ∈ items2
       ∧ (k3, VDict items4) ∈ items3
       ∧ (k4, VDict (b :: rest)) ∈ items4) →
  raises (populater (VDict items1)).
Proof.
  simpl. intros [(k1 & v1 & Hin & Hk1 & Hv1)
                |(k1 & items2 & k2 & items3 & k3 & items4 & k4 & b & rest
                  & Hin1 & Hk1 & Hne & Hin2 & Hin3 & Hin4)].
  - eapply for_each_raises_at; [|exact Hin].
    intros acc. unfold populater_level1. rewrite Hk1.
    destruct v1; try done; by eexists.
  - eapply for_each_raises_at; [|exact Hin1].
    intros acc1. unfold populater_level1. rewrite Hk1.
    eapply for_each_raises_at; [|exact Hin2].
    intros acc2. unfold populater_level2.
    eapply for_each_raises_at; [|exact Hin3].
    intros acc3. unfold populater_level3.
    eapply for_each_raises_at; [|exact Hin4].
    intros acc4. unfold populater_level4.
    rewrite decide_False by done. by eexists.
Qed.

Lemma populater_raises_witness :
  raises (populater two_sources)
  ∧ raises (populater (VDict [("sourcecontents", VStr "none")])).
Proof.
  split.
  - apply (populater_raises
             [ ("sourcecontents_1",
                VDict [ ("workflow",
                         VDict [ ("phone", VDict [ ("5551234", VStr "x") ]) ]) ]);
               ("sourcecontents_2",
                VDict [ ("workflow",
                         VDict [ ("email",
                                  VDict [ ("a@b.c", VDict [ ("n", VStr "1") ]) ]) ]) ]) ]).
    right.
    exists "sourcecontents_2",
      [ ("workflow", VDict [ ("email", VDict [ ("a@b.c", VDict [ ("n", VStr "1") ]) ]) ]) ],
      "workflow", [ ("email", VDict [ ("a@b.c", VDict [ ("n", VStr "1") ]) ]) ],
      "email", [ ("a@b.c", VDict [ ("n", VStr "1") ]) ], "a@b.c", ("n", VStr "1"), [].
    repeat split; try reflexivity; try discriminate; repeat constructor.
  - apply (populater_raises [("sourcecontents", VStr "none")]). left.
    exists "sourcecontents", (VStr "none"). repeat split; try reflexivity.
    by left.
Defined.

Lemma for_each_filter {A S} (body : S → A → result S) (P : A → Prop)
    `{∀ x, Decision (P x)} (l : list A) (acc : S) :
  (∀ a x, ¬ P x → body a x = Ok a) →
  for_each body (filter P l) acc = for_each body l acc.
Proof.
  intros Hskip. revert acc. induction l as [|x l IH]; intros acc; [done|].
  rewrite filter_cons. case_decide as HP; simpl.
  - destruct (body acc x); simpl; [apply IH | done].
  - rewrite (Hskip acc x HP). simpl. apply IH.
Qed.

(** X13. [populater] looks only at the bindings whose key contains
    [sourcecontents]: dropping the others changes neither its result
    nor the exception it raises. *)
Theorem populater_ignores_other_keys (items1 : list (string * value)) :
  populater
    (VDict (filter (λ b, str_contains "sourcecontents" b.1 = true) items1))
  = populater (VDict items1).
Proof.
  simpl. apply for_each_filter.
  intros a [k1 v1] Hk1. unfold populater_level1. simpl in Hk1.
  by destruct (str_contains "sourcecontents" k1).
Qed.

(** The loop of [check] over a list of factors. *)
Lemma check_loop (data : populated) (l : list string)
    (network : list (list (string * string))) :
  (for_each
     (λ (network : list (list (string * string))) k,
        if dict_contains k (relationships data) then Raise AttributeError
        else Ok network) l network = Ok network
   ∧ ∀ k, k ∈ l → dict_get k (relationships data) = None)
  ∨ (for_each
       (λ (network : list (list (string * string))) k,
          if dict_contains k (relationships data) then Raise AttributeError
          else Ok network) l network = Raise AttributeError
     ∧ ∃ k, k ∈ l ∧ is_Some (dict_get k (relationships data))).
Proof.
  induction l as [|k l IH]; simpl.
  - left. split; [done|]. by intros k ?%elem_of_nil.
  - destruct (dict_contains k (relationships data)) eqn:Hk; simpl.
    + right. split; [done|]. exists k. split; [by left|].
      unfold dict_contains in Hk. by apply bool_decide_eq_true in Hk.
    + unfold dict_contains in Hk. apply bool_decide_eq_false in Hk.
      destruct IH as [[Hrun Hnone]|[Hrun (k' & Hin & Hsome)]].
      * left. split; [done|]. intros k' [->|Hin]%elem_of_cons; [|by apply Hnone].
        destruct (dict_get k (relationships data)); [|done].
        destruct Hk. by eexists.
      * right. split; [done|]. exists k'. split; [by right | done].
Qed.

(** X14. [check] returns the empty network when no factor is a key of
    the relationships, and raises [AttributeError] when one is: it never
    returns a network with an element. *)
Theorem check_empty_or_AttributeError (fs : gset string) (data : populated) :
  (check fs data = Ok []
   ∧ ∀ k, k ∈ fs → dict_get k (relationships data) = None)
  ∨ (check fs data = Raise AttributeError
     ∧ ∃ k, k ∈ fs ∧ is_Some (dict_get k (relationships data))).
Proof.
  unfold check.
  destruct (check_loop data (elements fs) []) as [[Hrun Hnone]|[Hrun (k & Hin & Hk)]].
  - left. split; [exact Hrun|]. intros k Hk. apply Hnone. by apply elem_of_elements.
  - right. split; [exact Hrun|]. exists k. split; [|done].
    by apply elem_of_elements.
Qed.

Lemma check_Ok_inv (fs : gset string) (data : populated) network :
  check fs data = Ok network →
  network = [] ∧ ∀ k, k ∈ fs → dict_get k (relationships data) = None.
Proof.
  unfold check.
  destruct (check_loop data (elements fs) []) as [[-> Hnone]|[-> _]]; [|done].
  intros [= <-]. split; [done|].
  intros k Hk. apply Hnone. by apply elem_of_elements.
Qed.

(** X15. When [merge] returns, its three sets of factors are the
    factors common to [a] and [b], those of [a] alone and those of [b]
    alone; its three networks are empty; and no factor of [a] is a key of
    the relationships of [a]. *)
Theorem merge_result (a b : value) (e : everything) :
  merge a b = Ok e →
  ∃ data_a data_b,
    populater a = Ok data_a
    ∧ populater b = Ok data_b
    ∧ merged_factors e
      = [ ("intersection", factors data_a ∩ factors data_b);
          ("workflow_a", factors data_a ∖ factors data_b);
          ("workflow_b", factors data_b ∖ factors data_a) ]
    ∧ merged_network e
      = [ ("intersection", []); ("workflow_a", []); ("workflow_b", []) ]
    ∧ ∀ f, f ∈ factors data_a → dict_get f (relationships data_a) = None.
Proof.
  unfold merge. intros Hrun.
  destruct (populater a) as [data_a|?]; simpl in Hrun; [|done].
  destruct (populater b) as [data_b|?]; simpl in Hrun; [|done].
  destruct (check (factors data_a ∩ factors data_b) data_a) as [n1|?] eqn:H1;
    simpl in Hrun; [|done].
  destruct (check (factors data_a ∖ factors data_b) data_a) as [n2|?] eqn:H2;
    simpl in Hrun; [|done].
  destruct (check (factors data_b ∖ factors data_a) data_b) as [n3|?] eqn:H3;
    simpl in Hrun; [|done].
  apply check_Ok_inv in H1 as [-> Hnone1].
  apply check_Ok_inv in H2 as [-> Hnone2].
  apply check_Ok_inv in H3 as [-> _].
  injection Hrun as <-. exists data_a, data_b.
  repeat split; try reflexivity.
  intros f Hf. destruct (decide (f ∈ factors data_b)).
  - apply Hnone1. by apply elem_of_intersection.
  - apply Hnone2. by apply elem_of_difference.
Qed.

Lemma merge_result_witness :
  ∃ data_a data_b,
    populater one_source = Ok data_a
    ∧ populater one_source = Ok data_b
    ∧ [ ("intersection", {["phone_5551234"; "phone_5559876"]});
        ("workflow_a", ∅); ("workflow_b", ∅) ]
      = [ ("intersection", factors data_a ∩ factors data_b);
          ("workflow_a", factors data_a ∖ factors data_b);
          ("workflow_b", factors data_b ∖ factors data_a) ]
    ∧ [ ("intersection", []); ("workflow_a", []); ("workflow_b", []) ]
      = [ ("intersection", [] : list (list (string * string)));
          ("workflow_a", []); ("workflow_b", []) ]
    ∧ ∀ f, f ∈ factors data_a → dict_get f (relationships data_a) = None.
Proof.
  refine (merge_result one_source one_source
            (Everything
               [ ("intersection", {["phone_5551234"; "phone_5559876"]});
                 ("workflow_a", ∅); ("workflow_b", ∅) ]
               [ ("intersection", []); ("workflow_a", []); ("workflow_b", []) ])
            _).
  vm_compute. reflexivity.
Defined.

(** [merge] raises [AttributeError] when a factor of [a] is also a key
    of the relationships of [a]. *)
Example merge_factor_as_key :
  merge
    (VDict [ ("sourcecontents_1",
              VDict [ ("a_b", VDict [ ("a", VDict [ ("b", VStr "x") ]) ]) ]) ])
    (VDict [])
  = Raise AttributeError.
Proof. vm_compute. reflexivity. Qed.

End populater_theorems.

(** ** More on [extend] and its removal loop *)

Lemma dict_set_twice {K V : Type} `{EqDecision K} (k : K) (v : V)
    (d : list (K * V)) :
  dict_set k v (dict_set k v d) = dict_set k v d.
Proof.
  induction d as [|[k0 v0] d IH]; simpl.
  - by rewrite decide_True.
  - case_decide as Hk; simpl.
    + by rewrite decide_True.
    + rewrite decide_False by done. by rewrite IH.
Qed.

(** X16. Whatever the constructor returns, a call of [extend] that
    returns gives back [data] with the empty dictionary stored under
    [degree] and nothing else changed: nothing of what the constructor
    found is kept. *)
Theorem extend_result_is_data
    (constructor : string → list string → string → result (option factor_dict))
    (data : dict string value) (url : string) (factor_values : list string)
    (degree : string) (out : dict string value) :
  extend_with constructor data url factor_values degree = Ok out →
  out = dict_set degree (VDict []) data.
Proof.
  unfold extend_with. intros Hrun.
  destruct (for_each _ (dict_values data) ∅) as [field_values|e];
    simpl in Hrun; [|done].
  destruct (flatten _ 10) as [ad_ids_2|e]; simpl in Hrun; [|done].
  eapply (for_each_invariant (λ d, d = dict_set degree (VDict []) data));
    [| |exact Hrun]; [|done].
  intros acc ad_id acc' -> Hbody. cbv beta in Hbody.
  destruct (constructor ad_id factor_values url) as [addition|e];
    simpl in Hbody; [|done].
  destruct (flatten_addition addition 1) as [new_values|e];
    simpl in Hbody; [|done].
  injection Hbody as <-. unfold prune. apply dict_set_twice.
Qed.

Lemma extend_result_is_data_witness :
  sample_graph ++ [("ext2", VDict [])]
  = dict_set "ext2" (VDict []) sample_graph.
Proof.
  apply (extend_result_is_data sample_constructor sample_graph
           "http://es" ["phone"] "ext2").
  vm_compute. reflexivity.
Defined.

Lemma field_values_loop_returns (l : list value) (acc : gset string) :
  returns
    (for_each
       (λ (field_values : gset string) v,
          values ← flatten v 1; Ok (field_values ∪ values)) l acc)
  ↔ Forall (λ v, returns (flatten v 1)) l.
Proof.
  revert acc. induction l as [|v l IH]; intros acc; simpl.
  - split; [constructor | by eexists].
  - rewrite Forall_cons. destruct (flatten v 1) as [values|e]; simpl.
    + rewrite IH. split; [|by intros [_ ?]]. intros ?. split; [by eexists | done].
    + split; [by intros [? ?] | by intros [[? ?] _]].
Qed.

(** X17. The [extend] of the source returns exactly when [flatten] at
    level 1 returns for every value of [data] and [flatten] at level 10
    finds no entity id in [data]; it then returns [data] with the empty
    dictionary under [degree]. *)
Theorem extend_returns_iff
    (FactorBase_suggest : ElasticFactor.t → string → string → result factor_dict)
    (data : dict string value) (url : string) (factor_values : list string)
    (degree : string) (out : dict string value) :
  extend FactorBase_suggest data url factor_values degree = Ok out
  ↔ Forall (λ v, returns (flatten v 1)) (dict_values data)
    ∧ flatten (VDict (dict_set degree (VDict []) data)) 10 = Ok ∅
    ∧ out = dict_set degree (VDict []) data.
Proof.
  unfold extend, extend_with.
  rewrite <- (field_values_loop_returns (dict_values data) ∅).
  destruct (for_each _ (dict_values data) ∅) as [field_values|e]; simpl.
  - destruct (flatten _ 10) as [ad_ids_2|e]; simpl.
    + destruct (elements ad_ids_2) as [|ad_id rest] eqn:Hids; simpl.
      * apply elements_empty_inv, leibniz_equiv in Hids. subst ad_ids_2.
        split.
        -- intros [= <-]. split; [by eexists | done].
        -- by intros (_ & _ & ->).
      * split; [done|]. intros (_ & [= ->] & _).
        by rewrite elements_empty in Hids.
    + split; [done | by intros (_ & ? & _)].
  - split; [done | by intros [[? ?] _]].
Qed.

Lemma list_remove_other (x y : string) (l : list string) :
  x ≠ y → y ∈ l → y ∈ list_remove x l.
Proof.
  intros Hne. induction l as [|z l IH]; simpl; [done|].
  intros [->|Hin]%elem_of_cons.
  - rewrite decide_False by done. by left.
  - case_decide; [done|]. right. by apply IH.
Qed.

Lemma remove_seen_from_keeps fuel field_values (l : list string) i x :
  x ∉ field_values → x ∈ l → x ∈ remove_seen_from fuel field_values l i.
Proof.
  intros Hx. revert l i. induction fuel as [|fuel IH]; intros l i Hin; simpl.
  - done.
  - destruct (l !! i) as [value|]; [|done].
    case_decide as Hv; [|by apply IH].
    apply IH. apply list_remove_other; [|done]. by intros ->.
Qed.

(** X18. The removal loop never drops a value that is new: every value
    of the list that is not among the known ones is still in the list
    when the loop ends. *)
Theorem remove_seen_keeps_new (field_values : gset string)
    (new_field_values : list string) (x : string) :
  x ∈ new_field_values → x ∉ field_values →
  x ∈ remove_seen field_values new_field_values.
Proof. intros Hin Hx. unfold remove_seen. by apply remove_seen_from_keeps. Qed.

Lemma remove_seen_keeps_new_witness :
  "5550000" ∈ remove_seen {["5551234"; "5559876"]}
                ["5551234"; "5559876"; "5550000"].
Proof.
  apply (remove_seen_keeps_new {["5551234"; "5559876"]}
           ["5551234"; "5559876"; "5550000"] "5550000").
  - compute_done.
  - compute_done.
Defined.

Lemma list_remove_sublist (x : string) (l : list string) :
  list_remove x l `sublist_of` l.
Proof.
  induction l as [|y l IH]; simpl; [done|].
  case_decide; [by apply sublist_cons | by apply sublist_skip].
Qed.

Lemma remove_seen_from_sublist fuel field_values (l : list string) i :
  remove_seen_from fuel field_values l i `sublist_of` l.
Proof.
  revert l i. induction fuel as [|fuel IH]; intros l i; simpl; [done|].
  destruct (l !! i) as [value|]; [|done].
  case_decide; [|apply IH].
  etrans; [apply IH | apply list_remove_sublist].
Qed.

(** X19. The removal loop only removes: what it leaves is a sublist of
    the list it started from, in the same order. *)
Theorem remove_seen_sublist (field_values : gset string)
    (new_field_values : list string) :
  remove_seen field_values new_field_values `sublist_of` new_field_values.
Proof. unfold remove_seen. apply remove_seen_from_sublist. Qed.

(** ** More on [suggest] and [ElasticFactor.reduce] *)

(** X20. [suggest] returns suggestions exactly when the lookup returned
    them and they hold at least one value for the factor of the entity;
    it then returns them unchanged. *)
Theorem suggest_returns_iff
    (FactorBase_suggest : ElasticFactor.t → string → string → result factor_dict)
    (ad_id factor_label url : string)
    (suggestions : list (string * list (string * value))) :
  suggest FactorBase_suggest ad_id factor_label url = Ok (Some suggestions)
  ↔ FactorBase_suggest (ElasticFactor.new url) ad_id factor_label = Ok suggestions
    ∧ ∃ by_id by_label,
        dict_get ad_id suggestions = Some by_id
        ∧ dict_get factor_label by_id = Some by_label
        ∧ len by_label ≠ 0.
Proof.
  unfold suggest, dict_item.
  destruct (FactorBase_suggest (ElasticFactor.new url) ad_id factor_label)
    as [s|e]; simpl.
  - destruct (dict_get ad_id s) as [by_id|] eqn:Hid; simpl.
    + destruct (dict_get factor_label by_id) as [by_label|] eqn:Hl; simpl.
      * case_decide as Hlen; simpl.
        -- split; [done|]. intros ([= <-] & by_id' & by_label' & Hid' & Hl' & Hne).
           rewrite Hid in Hid'. injection Hid' as <-.
           rewrite Hl in Hl'. by injection Hl' as <-.
        -- split.
           ++ intros [= <-]. split; [done|]. by exists by_id, by_label.
           ++ by intros ([= <-] & _).
      * split; [done|]. intros ([= <-] & by_id' & by_label' & Hid' & Hl' & _).
        rewrite Hid in Hid'. injection Hid' as <-. by rewrite Hl in Hl'.
    + split; [done|]. intros ([= <-] & by_id' & by_label' & Hid' & _).
      by rewrite Hid in Hid'.
  - split; [by destruct e | by intros [? _]].
Qed.

(** X21. When the lookup returns suggestions that lack the entity, or
    lack the factor under the entity, [suggest] raises [KeyError]. *)
Theorem suggest_KeyError
    (FactorBase_suggest : ElasticFactor.t → string → string → result factor_dict)
    (ad_id factor_label url : string)
    (suggestions : list (string * list (string * value))) :
  FactorBase_suggest (ElasticFactor.new url) ad_id factor_label = Ok suggestions →
  (dict_get ad_id suggestions = None
   ∨ ∃ by_id, dict_get ad_id suggestions = Some by_id
              ∧ dict_get factor_label by_id = None) →
  suggest FactorBase_suggest ad_id factor_label url = Raise KeyError.
Proof.
  unfold suggest, dict_item. intros -> [Hid|(by_id & Hid & Hl)]; simpl.
  - by rewrite Hid.
  - rewrite Hid. simpl. by rewrite Hl.
Qed.

Lemma suggest_KeyError_witness :
  suggest misfiled_suggest "63166071" "phone" "http://es" = Raise KeyError.
Proof.
  apply (suggest_KeyError misfiled_suggest "63166071" "phone" "http://es"
           [ ("0", [ ("phone", VDict [ ("5551234", ids_of ["71046685"]) ]) ]) ]).
  - reflexivity.
  - left. reflexivity.
Defined.

Lemma comprehension_raises {A B} (f : A → result B) (l : list A) (e : exn) :
  Forall (λ x, returns (f x) ∨ f x = Raise e) l →
  Exists (λ x, f x = Raise e) l →
  comprehension f l = Raise e.
Proof.
  induction 1 as [|x l Hx _ IH]; intros Hex.
  - by apply Exists_nil in Hex.
  - simpl. destruct Hx as [[y Hy]|Hx].
    + rewrite Hy. simpl. rewrite IH; [done|].
      apply Exists_cons in Hex as [Hex|Hex]; [congruence | done].
    + by rewrite Hx.
Qed.

(** X22. The error paths of [reduce]: an exception of [combine] goes
    through; an entity that [combine] did not return is a [KeyError]; so
    is a requested factor that is not stored, when the others are well
    stored; and an empty list of factors is a [TypeError]. *)
Theorem reduce_error_paths
    (combine : ElasticFactor.t → string → list string →
               result (dict string (dict string value)))
    (self : ElasticFactor.t) (ad_id : string) (factors : list string) :
  (∀ e, combine self ad_id factors = Raise e →
        ElasticFactor.reduce combine self ad_id factors = Raise e)
  ∧ (∀ all, combine self ad_id factors = Ok all →
            dict_get ad_id all = None →
            ElasticFactor.reduce combine self ad_id factors = Raise KeyError)
  ∧ (∀ all combined,
       combine self ad_id factors = Ok all →
       dict_get ad_id all = Some combined →
       (factors = [] →
        ElasticFactor.reduce combine self ad_id factors = Raise TypeError)
       ∧ (Forall (λ factor, well_stored combined factor
                            ∨ dict_get factor combined = None) factors →
          Exists (λ factor, dict_get factor combined = None) factors →
          ElasticFactor.reduce combine self ad_id factors = Raise KeyError)).
Proof.
  unfold ElasticFactor.reduce, dict_item. split; [|split].
  - by intros e ->.
  - intros all -> Hnone. simpl. by rewrite Hnone.
  - intros all combined -> Hsome. simpl. rewrite Hsome. simpl. split.
    + by intros ->.
    + intros Hall Hex.
      rewrite (comprehension_raises _ factors KeyError); [done| |].
      * eapply Forall_impl; [exact Hall|]. intros factor [Hws|Hnone].
        -- left. by apply union_of_values_returns.
        -- right. unfold ElasticFactor.union_of_values, dict_item.
           by rewrite Hnone.
      * eapply Exists_impl; [exact Hex|]. intros factor Hnone.
        unfold ElasticFactor.union_of_values, dict_item. by rewrite Hnone.
Qed.

Lemma reduce_error_paths_witness :
  ElasticFactor.reduce sample_combine (ElasticFactor.new "http://es")
    "63166071" ["phone"; "text"] = Raise KeyError.
Proof.
  refine (proj2 (proj2 (proj2 (reduce_error_paths sample_combine
            (ElasticFactor.new "http://es") "63166071" ["phone"; "text"]))
            _ _ eq_refl eq_refl) _ _).
  - constructor; [left|constructor; [right; reflexivity|constructor]].
    eexists. split; [reflexivity|]. repeat constructor; by eexists.
  - apply Exists_cons_tl, Exists_cons_hd. reflexivity.
Defined.

(** ** More on [combine_two_factors], [combine_multi_factors] and [flatten] *)

Section dict_shape.
Context {K V : Type} `{EqDecision K}.
Implicit Types (d : list (K * V)) (k : K) (v : V).

Lemma dict_keys_alter (f : V → V) k d :
  dict_keys (dict_alter f k d) = dict_keys d.
Proof.
  unfold dict_keys. induction d as [|[k0 v0] d IH]; simpl; [done|].
  case_decide; simpl; [done | f_equal; exact IH].
Qed.

Lemma dict_keys_set_elem k k' v d :
  k ∈ dict_keys (dict_set k' v d) ↔ k = k' ∨ k ∈ dict_keys d.
Proof.
  rewrite !dict_keys_get, dict_get_set. case_decide as Hk.
  - split; [by left | by eauto].
  - split; [by right | by intros [?|?]].
Qed.

Lemma dict_set_wf k v d : dict_wf d → dict_wf (dict_set k v d).
Proof.
  unfold dict_wf, dict_keys. induction d as [|[k0 v0] d IH]; simpl.
  - intros _. apply NoDup_singleton.
  - intros [Hk0 Hd]%NoDup_cons. case_decide as Hk; simpl.
    + by apply NoDup_cons.
    + apply NoDup_cons. split; [|by apply IH].
      intros Hin. apply Hk0.
      apply (dict_keys_set_elem k0 k v d) in Hin as [->|Hin]; done.
Qed.

Lemma dict_set_Forall (P : V → Prop) k v d :
  P v → Forall (λ kv, P kv.2) d → Forall (λ kv, P kv.2) (dict_set k v d).
Proof.
  intros Hv. induction 1 as [|[k0 v0] d Hv0 Hd IH]; simpl.
  - by repeat constructor.
  - case_decide; constructor; done.
Qed.

Lemma dict_alter_Forall (P : V → Prop) (f : V → V) k d :
  (∀ x, P x → P (f x)) →
  Forall (λ kv, P kv.2) d → Forall (λ kv, P kv.2) (dict_alter f k d).
Proof.
  intros Hf. induction 1 as [|[k0 v0] d Hv0 Hd IH]; simpl; [constructor|].
  case_decide; constructor; try done. by apply Hf.
Qed.

End dict_shape.

(** Both levels of a two-level dictionary bind each key once. *)
Definition dict_wf2 {K1 K2 V : Type} (d : list (K1 * list (K2 * V))) : Prop :=
  dict_wf d ∧ Forall (λ kv, dict_wf kv.2) d.

Lemma combine_two_factors_keeps_wf2 {K1 K2 V : Type}
    `{EqDecision K1, EqDecision K2}
    (original addition : list (K1 * list (K2 * V))) :
  dict_wf2 original → dict_wf2 (combine_two_factors original addition).
Proof.
  unfold combine_two_factors. revert original.
  induction addition as [|[k1 addition_k1] addition IH]; intros original Hwf;
    simpl; [done|].
  apply IH.
  assert (dict_wf2 (if dict_contains k1 original then original
                    else dict_set k1 [] original)) as Hguard.
  { destruct (dict_contains k1 original); [done|].
    destruct Hwf as [Hwf1 Hwf2]. split.
    - by apply dict_set_wf.
    - apply (dict_set_Forall dict_wf); [apply NoDup_nil_2 | done]. }
  revert Hguard.
  generalize (if dict_contains k1 original then original
              else dict_set k1 [] original).
  clear. induction addition_k1 as [|[k2 v] rest IH]; intros d Hwf; simpl; [done|].
  apply IH. destruct Hwf as [Hwf1 Hwf2]. split.
  - unfold dict_wf. by rewrite dict_keys_alter.
  - apply (dict_alter_Forall dict_wf); [|done]. intros x. apply dict_set_wf.
Qed.

Lemma combine_two_factors_keeps_keys {K1 K2 V : Type}
    `{EqDecision K1, EqDecision K2}
    (original addition : list (K1 * list (K2 * V))) k :
  k ∈ dict_keys original → k ∈ dict_keys (combine_two_factors original addition).
Proof.
  unfold combine_two_factors. revert original.
  induction addition as [|[k1 addition_k1] addition IH]; intros original Hk;
    simpl; [done|].
  apply IH.
  assert (k ∈ dict_keys (if dict_contains k1 original then original
                         else dict_set k1 [] original)) as Hguard.
  { destruct (dict_contains k1 original); [done|].
    apply dict_keys_set_elem. by right. }
  revert Hguard.
  generalize (if dict_contains k1 original then original
              else dict_set k1 [] original).
  clear. induction addition_k1 as [|[k2 v] rest IH]; intros d Hk; simpl; [done|].
  apply IH. by rewrite dict_keys_alter.
Qed.

(** X23. [combine_two_factors] keeps [original] a dictionary: when both
    levels of [original] bind each key once, so do both levels of the
    result, whatever [addition] is. *)
Theorem combine_two_factors_wf {K1 K2 V : Type}
    `{EqDecision K1, EqDecision K2}
    (original addition : list (K1 * list (K2 * V))) :
  dict_wf original →
  Forall (λ kv, dict_wf kv.2) original →
  dict_wf (combine_two_factors original addition)
  ∧ Forall (λ kv, dict_wf kv.2) (combine_two_factors original addition).
Proof.
  intros Hwf1 Hwf2.
  by apply (combine_two_factors_keeps_wf2 original addition).
Qed.

Lemma combine_two_factors_wf_witness :
  dict_wf (combine_two_factors
             [("x", [(1, 1)]); ("y", [(3, 3)])]
             [("x", [(2, 2); (1, 7)]); ("z", [(4, 4)])])
  ∧ Forall (λ kv, dict_wf kv.2)
      (combine_two_factors
         [("x", [(1, 1)]); ("y", [(3, 3)])]
         [("x", [(2, 2); (1, 7)]); ("z", [(4, 4)])]).
Proof.
  apply (combine_two_factors_wf
           [("x", [(1, 1)]); ("y", [(3, 3)])]
           [("x", [(2, 2); (1, 7)]); ("z", [(4, 4)])]).
  - unfold dict_wf. simpl. compute_done.
  - repeat constructor; unfold dict_wf; simpl; compute_done.
Defined.

(** X24. When its first element is a dictionary, [combine_multi_factors]
    never raises: it returns a dictionary, and every outer key of the
    first element is an outer key of the result. *)
Theorem combine_multi_factors_from_dict {K1 K2 V : Type}
    `{EqDecision K1, EqDecision K2}
    (original : list (K1 * list (K2 * V)))
    (rest : list (option (list (K1 * list (K2 * V))))) :
  ∃ combined,
    combine_multi_factors (Some original :: rest) = Ok (Some combined)
    ∧ ∀ k, k ∈ dict_keys original → k ∈ dict_keys combined.
Proof.
  unfold combine_multi_factors. revert original.
  induction rest as [|i rest IH]; intros original; simpl.
  - by exists original.
  - destruct i as [[|b addition]|]; simpl; [apply IH| |apply IH].
    destruct (IH (combine_two_factors original (b :: addition)))
      as (combined & Hrun & Hkeys).
    exists combined. split; [exact Hrun|].
    intros k Hk. apply Hkeys. by apply combine_two_factors_keeps_keys.
Qed.

Lemma items_loop_level_1 (items : list (string * value))
    (results out : gset string) (depth : Z) :
  0 ≤ depth →
  items_loop 1 items results depth = Ok out →
  ∀ x, x ∈ out ↔
    x ∈ results
    ∨ ∃ k v, (k, v) ∈ items
        ∧ ((is_dict v = false ∧ ∃ i, iter_hashable v = Ok i ∧ x ∈ i)
           ∨ ∃ d k' v' i, v = VDict d ∧ (k', v') ∈ d
                          ∧ iter_hashable v' = Ok i ∧ x ∈ i).
Proof.
  revert results depth. induction items as [|[k v] items IH];
    intros results depth Hdepth Hrun x; simpl in Hrun.
  - injection Hrun as <-. split; [by left|].
    intros [?|(k & v & Hin & _)]; [done|]. by apply elem_of_nil in Hin.
  - destruct (is_dict v) eqn:Hv.
    + destruct v as [| |d]; try done.
      rewrite get_ad_ids_VDict, decide_True in Hrun by lia.
      destruct (for_each _ d results) as [results'|e] eqn:Hd;
        simpl in Hrun; [|done].
      assert (0 ≤ depth + 1) as Hdepth' by lia.
      rewrite (IH _ _ Hdepth' Hrun x), (for_each_top_values d _ _ Hd x).
      split.
      * intros [[?|(k' & v' & i & Hin & Hi & Hx)]|(k0 & v0 & Hin & Hcase)].
        -- by left.
        -- right. exists k, (VDict d). split; [by left|]. right.
           by exists d, k', v', i.
        -- right. exists k0, v0. split; [by right | done].
      * intros [?|(k0 & v0 & Hin & Hcase)]; [by left; left|].
        apply elem_of_cons in Hin as [[= -> ->]|Hin].
        -- destruct Hcase as [[? _]|(d' & k' & v' & i & [= <-] & Hin & Hi & Hx)];
             [done|].
           left. right. by exists k', v', i.
        -- right. by exists k0, v0.
    + destruct (iter_hashable v) as [i|e] eqn:Hi; simpl in Hrun; [|done].
      rewrite (IH _ _ Hdepth Hrun x), elem_of_union, elem_of_list_to_set.
      split.
      * intros [[?|?]|(k0 & v0 & Hin & Hcase)].
        -- by left.
        -- right. exists k, v. split; [by left|]. left. split; [done|].
           by exists i.
        -- right. exists k0, v0. split; [by right | done].
      * intros [?|(k0 & v0 & Hin & Hcase)]; [by left; left|].
        apply elem_of_cons in Hin as [[= -> ->]|Hin].
        -- destruct Hcase as [[_ (i' & Hi' & Hx)]|(d & ? & ? & ? & -> & _)];
             [|done].
           left. right. rewrite Hi in Hi'. by injection Hi' as <-.
        -- right. by exists k0, v0.
Qed.

(** X25. With [level = 1], as [extend] calls it, [flatten] returns what
    iterating once yields for each top-level value that is not a
    dictionary and for each value stored in a top-level value that is
    one, whatever the number and the order of the bindings. *)
Theorem flatten_level_1 (items : list (string * value)) (out : gset string) :
  flatten (VDict items) 1 = Ok out →
  ∀ x, x ∈ out ↔
    ∃ k v, (k, v) ∈ items
      ∧ ((is_dict v = false ∧ ∃ i, iter_hashable v = Ok i ∧ x ∈ i)
         ∨ ∃ d k' v' i, v = VDict d ∧ (k', v') ∈ d
                        ∧ iter_hashable v' = Ok i ∧ x ∈ i).
Proof.
  unfold flatten. rewrite get_ad_ids_VDict, decide_False by lia.
  intros Hrun x. rewrite (items_loop_level_1 items ∅ out 0 ltac:(lia) Hrun x).
  split; [|by right]. intros [Hx|?]; [|done]. by apply elem_of_empty in Hx.
Qed.

Lemma flatten_level_1_witness :
  "5551234" ∈ ({["5551234"]} : gset string)
  ↔ ∃ k v, (k, v) ∈ sample_factors_items
      ∧ ((is_dict v = false ∧ ∃ i, iter_hashable v = Ok i ∧ "5551234" ∈ i)
         ∨ ∃ d k' v' i, v = VDict d ∧ (k', v') ∈ d
                        ∧ iter_hashable v' = Ok i ∧ "5551234" ∈ i).
Proof.
  refine (flatten_level_1 sample_factors_items {["5551234"]} _ "5551234").
  vm_compute. reflexivity.
Defined.
